(** * Show_time_series_data: the analytics engine, embedded and verified

    A shallow embedding of the computational parts of
    [src/anylisis_data.py] and [src/show_data_large_data.py]:
    file loading and column bookkeeping, time filtering and resampling,
    step detection, first-order identification (steady values, model
    evaluation, goodness of fit), the tuning heuristic, the pairwise
    Granger ranking and the quantile-based fuzzy rule miner.

    Conventions.
    - Timestamps are integers ([Z], nanoseconds since the epoch, as pandas
      stores them); a missing cell (NaN) of a table is [None].
    - Array arithmetic of numpy/pandas (sums, means, medians, quantiles) is
      modelled in exact rational arithmetic ([Q]); numpy's reduction order
      and rounding are not modelled. Comparisons on [Q] are the decidable
      boolean ones, so every definition evaluates.
    - The scalar tuning formulas, which only use Python float operations,
      are modelled with binary64 floats ([PrimFloat]), bit for bit.
    - GUI state read by a routine (selected variables, time window, combo
      box entries) is an explicit argument; the text written to the result
      pane is the returned value. *)

From Stdlib Require Import ZArith QArith Qabs List String Ascii Bool Lia.
From Stdlib Require Import Permutation Sorted Floats Lqa.
Import ListNotations.

Set Warnings "-inexact-float".

(* ================================================================== *)
(** * Part I. Definitions *)
(* ================================================================== *)

(** ** Python helpers shared by the components *)

Module Py.

Local Open Scope string_scope.

(** [s.startswith(p)] *)
Definition startswith (p s : string) : bool := String.prefix p s.

(** [s.endswith(p)] *)
Definition endswith (p s : string) : bool :=
  let n := String.length s in
  let k := String.length p in
  (k <=? n)%nat && String.eqb (substring (n - k) k s) p.

(** Characters that [str.strip()] removes, restricted to one-byte code
    points: TAB, LF, VT, FF, CR, the separators 28..31 and the space. *)
Definition isspace (c : ascii) : bool :=
  let n := nat_of_ascii c in
  ((9 <=? n) && (n <=? 13) || (28 <=? n) && (n <=? 31) || (n =? 32))%nat.

Fixpoint all_space (s : string) : bool :=
  match s with
  | EmptyString => true
  | String c r => isspace c && all_space r
  end.

(** [s.strip() == ''] : nothing is left once the blanks are stripped. *)
Definition strip_is_empty (s : string) : bool := all_space s.

Definition lower_ascii (c : ascii) : ascii :=
  let n := nat_of_ascii c in
  if ((65 <=? n) && (n <=? 90))%nat then ascii_of_nat (n + 32) else c.

(** [s.lower()] on the ASCII letters. *)
Fixpoint lower (s : string) : string :=
  match s with
  | EmptyString => EmptyString
  | String c r => String (lower_ascii c) (lower r)
  end.

(** [s.split(sep)[-1]] for a one-character separator: what follows the
    last occurrence of [sep] (all of [s] when there is none). *)
Fixpoint split_last (sep : ascii) (s : string) : string :=
  match s with
  | EmptyString => EmptyString
  | String c r =>
      if existsb (Ascii.eqb sep) (list_ascii_of_string r)
      then split_last sep r
      else if Ascii.eqb c sep then r else s
  end.

(** [s.split(sep)[0]] : what precedes the first occurrence of [sep]. *)
Fixpoint split_first (sep : ascii) (s : string) : string :=
  match s with
  | EmptyString => EmptyString
  | String c r => if Ascii.eqb c sep then EmptyString else String c (split_first sep r)
  end.

(** [s[:-k]] *)
Definition drop_last (k : nat) (s : string) : string :=
  substring 0 (String.length s - k) s.

Definition mem (s : string) (l : list string) : bool := existsb (String.eqb s) l.

(** [l[lo:hi]] for [0 <= lo]; the ranges of this program never use the
    negative (from-the-end) indices of Python. *)
Definition slice {A} (l : list A) (lo hi : Z) : list A :=
  firstn (Z.to_nat (hi - lo)) (skipn (Z.to_nat lo) l).

(** The built-in [max(a, b)] of two numbers: [b] when [b > a], else [a]. *)
Definition qmax (a b : Q) : Q := if Qle_bool b a then a else b.
(** The built-in [min(a, b)]: [b] when [b < a], else [a]. *)
Definition qmin (a b : Q) : Q := if Qle_bool a b then a else b.

Definition Qlt_bool (a b : Q) : bool := negb (Qle_bool b a).

End Py.

(** ** Array reductions of numpy and pandas, over exact rationals *)

Module Np.

Local Open Scope Q_scope.

Definition sum (l : list Q) : Q := fold_left Qplus l 0.

Definition len (l : list Q) : Q := inject_Z (Z.of_nat (List.length l)).

(** [np.mean]; on the empty array numpy yields NaN, which no caller of
    this development reaches: the model returns [0] there. *)
Definition mean (l : list Q) : Q := sum l / len l.

Fixpoint insert (x : Q) (l : list Q) : list Q :=
  match l with
  | [] => [x]
  | y :: r => if Qle_bool x y then x :: l else y :: insert x r
  end.

(** [np.sort] *)
Definition sort (l : list Q) : list Q := fold_right insert [] l.

(** [np.median]: the middle of the sorted values, the mean of the two
    middle ones for an even count ([0] stands for NaN on the empty array). *)
Definition median (l : list Q) : Q :=
  let s := sort l in
  let n := List.length s in
  if Nat.even n
  then (nth (n / 2 - 1) s 0 + nth (n / 2) s 0) / 2
  else nth (n / 2) s 0.

(** [np.diff]: consecutive differences [x[i+1] - x[i]]. *)
Fixpoint diff (l : list Q) : list Q :=
  match l with
  | a :: ((b :: _) as r) => (b - a) :: diff r
  | _ => []
  end.

(** [Series.quantile(q)] with pandas' default linear interpolation:
    position [q * (n - 1)] in the sorted values, [q = num / den]. *)
Definition quantile (num den : Z) (l : list Q) : Q :=
  let s := sort l in
  let pos := (num * (Z.of_nat (List.length s) - 1))%Z in
  let lo := Z.to_nat (pos / den) in
  let frac := inject_Z (pos mod den) / inject_Z den in
  let a := nth lo s 0 in
  let b := nth (S lo) s a in
  a + (b - a) * frac.

End Np.

(** ** Dataset store: [load_files] and [update_variable_list] *)

Module Loader.

Local Open Scope string_scope.

(** A table as the loader sees it: the row labels and the column labels.
    After [set_index] the labels of the rows are the parsed timestamps. *)
Record DataFrame := mkDF { index : list Z; columns : list string }.

(** [pd.DataFrame()] *)
Definition empty_frame : DataFrame := mkDF [] [].

(** [df.empty]: some axis has length 0. *)
Definition empty (df : DataFrame) : bool :=
  match index df, columns df with
  | [], _ => true
  | _, [] => true
  | _, _ => false
  end.

(** A file as [pd.read_csv] / [pd.read_excel] returns it, with the first
    column (the time column) already parsed by [pd.to_datetime]:
    [raw_columns] lists every header, the time column first. *)
Record RawTable := mkRaw { raw_columns : list string; raw_times : list Z }.

Definition raw_empty (t : RawTable) : bool :=
  match raw_times t, raw_columns t with
  | [], _ => true
  | _, [] => true
  | _, _ => false
  end.

(** The test of [load_files] and [update_variable_list]:
    [str(col).startswith('Unnamed:') or str(col).strip() == ''];
    true on a blank, whitespace-only or auto-generated header. *)
Definition is_placeholder (col : string) : bool :=
  Py.startswith "Unnamed:" col || Py.strip_is_empty col.

(** [file.split('/')[-1].split('.')[0] + "_"] (anylisis_data.py) *)
Definition file_prefix (file : string) : string :=
  Py.split_first "." (Py.split_last "/" file) ++ "_".


(** The dict [new_columns], in insertion order: one entry
    [col -> file_prefix + col] for every column that is neither the time
    column nor a placeholder (those two cases [continue]). *)
Fixpoint new_columns (time_col prefix : string) (cols : list string)
  : list (string * string) :=
  match cols with
  | [] => []
  | col :: r =>
      if String.eqb col time_col then new_columns time_col prefix r
      else if is_placeholder col then new_columns time_col prefix r
      else (col, prefix ++ col) :: new_columns time_col prefix r
  end.

Fixpoint lookup (k : string) (d : list (string * string)) : option string :=
  match d with
  | [] => None
  | (k', v) :: r => if String.eqb k k' then Some v else lookup k r
  end.

(** [df.rename(columns=d)]: a label that is a key of [d] is replaced, every
    other label is kept as it is. No column is removed. *)
Definition rename (d : list (string * string)) (cols : list string) : list string :=
  map (fun c => match lookup c d with Some v => v | None => c end) cols.

(** [df.set_index(time_col)] followed by the renaming: the frame that is
    handed to the merge. *)
Definition prepare (prefix : string) (t : RawTable) : DataFrame :=
  match raw_columns t with
  | [] => mkDF (raw_times t) []
  | time_col :: cols =>
      mkDF (raw_times t) (rename (new_columns time_col prefix cols) cols)
  end.

Fixpoint insert_time (t : Z) (l : list Z) : list Z :=
  match l with
  | [] => [t]
  | u :: r => if (t <? u)%Z then t :: l
              else if (t =? u)%Z then l else u :: insert_time t r
  end.

(** The row labels of an outer join on the index: the sorted union. *)
Definition outer_index (a b : list Z) : list Z := fold_right insert_time [] (a ++ b).

(** The column labels of
    [pd.merge(left, right, left_index=True, right_index=True, how='outer',
    suffixes=('', '_dup'))]: a label on both sides keeps its name on the
    left and gets ["_dup"] on the right. *)
Definition merge_columns (left right : list string) : list string :=
  left ++ map (fun c => if Py.mem c left then c ++ "_dup" else c) right.

(** [df.drop(columns=[col])]: every column of that label goes. *)
Definition drop (col : string) (cols : list string) : list string :=
  filter (fun c => negb (String.eqb c col)) cols.

(** The clean-up loop after the merge, run over a snapshot of the labels:
    a label ending in ["_dup"] is dropped when the label without the suffix
    is (still) a column. *)
Definition drop_dups (cols : list string) : list string :=
  fold_left
    (fun cur col =>
       if Py.endswith "_dup" col && Py.mem (Py.drop_last 4 col) cur
       then drop col cur else cur)
    cols cols.

(** One iteration of the loop over the chosen files, for a file that is
    not loaded yet and parses: an empty file is skipped, the first
    non-empty one becomes the dataset, a later one is outer-joined. *)
Definition load_file_with (prefix_of : string -> string)
    (merged : DataFrame) (file : string) (t : RawTable) : DataFrame :=
  if raw_empty t then merged
  else
    let df := prepare (prefix_of file) t in
    if empty merged then df
    else mkDF (outer_index (index merged) (index df))
              (drop_dups (merge_columns (columns merged) (columns df))).

(** [load_files] of anylisis_data.py and of show_data_large_data.py. *)
Definition load_file := load_file_with file_prefix.

(** The loop of [load_files] over the chosen files; [file_list] holds the
    names loaded so far, and a name that is already there is passed over. *)
Definition load_files (file_list : list string) (merged : DataFrame)
    (files : list (string * RawTable)) : list string * DataFrame :=
  fold_left
    (fun st ft =>
       if Py.mem (fst ft) (fst st) then st
       else ((fst st ++ [fst ft])%list, load_file (snd st) (fst ft) (snd ft)))
    files (file_list, merged).

(** The UTF-8 bytes of the two-character prefix that means "time" in the
    third alternative of [startswith(('time', 'date', ...))]. *)
Definition shijian : string :=
  string_of_list_ascii
    (map ascii_of_nat [230; 151; 182; 233; 151; 180]%nat).

(** [update_variable_list]: the full names offered for selection; columns
    that look like a time axis and placeholder columns are passed over. *)
Definition update_variable_list (merged : DataFrame) : list string :=
  if empty merged then []
  else
    filter
      (fun col =>
         negb (Py.startswith "time" (Py.lower col)
               || Py.startswith "date" (Py.lower col)
               || Py.startswith shijian (Py.lower col))
         && negb (is_placeholder col))
      (columns merged).

End Loader.

(** ** Alignment and resampling: [_apply_time_filter_and_sampling] *)

Module Resample.

Local Open Scope Z_scope.

(** The entries of the aggregation combo box. *)
Inductive Agg := Mean | First | Max | Min | Median.

(** The entries of the frequency combo box; [Raw] is the entry that asks
    for the data as it is. *)
Inductive Freq := Raw | S1 | S5 | S10 | S30 | T1 | T5 | T15 | T30 | H1.

Definition second_ns : Z := 1000000000.

(** The width of a bucket in nanoseconds ([S] seconds, [T] minutes,
    [H] hours); [None] for the raw entry. *)
Definition period_ns (f : Freq) : option Z :=
  match f with
  | Raw => None
  | S1 => Some second_ns
  | S5 => Some (5 * second_ns)
  | S10 => Some (10 * second_ns)
  | S30 => Some (30 * second_ns)
  | T1 => Some (60 * second_ns)
  | T5 => Some (300 * second_ns)
  | T15 => Some (900 * second_ns)
  | T30 => Some (1800 * second_ns)
  | H1 => Some (3600 * second_ns)
  end.

Definition Row : Type := Z * list (option Q).

(** A time-indexed numeric table: the column labels and, per row, the
    timestamp and one cell per column. *)
Record Frame := mkFrame { columns : list string; rows : list Row }.

Definition empty (df : Frame) : bool :=
  match rows df, columns df with
  | [], _ => true
  | _, [] => true
  | _, _ => false
  end.

(** [df.loc[(df.index >= start_time) & (df.index <= end_time)]] *)
Definition time_filter (start_time end_time : Z) (df : Frame) : Frame :=
  mkFrame (columns df)
          (filter (fun r => (start_time <=? fst r) && (fst r <=? end_time)) (rows df)).

(** [index.min()] and [index.max()] of a list of rows ([0] on no row). *)
Definition index_min (rs : list Row) : Z :=
  match rs with
  | [] => 0
  | r :: tl => fold_left Z.min (map fst tl) (fst r)
  end.

Definition index_max (rs : list Row) : Z :=
  match rs with
  | [] => 0
  | r :: tl => fold_left Z.max (map fst tl) (fst r)
  end.

(** The left edge of the bucket of width [p] that holds [t]. The periods
    on offer all divide a day, so the buckets pandas anchors at midnight
    of the first day are the multiples of [p]. *)
Definition bucket (p t : Z) : Z := p * (t / p).

(** The labels of the buckets from that of the first timestamp to that of
    the last: pandas labels a bucket by its left edge. *)
Definition labels (p lo hi : Z) : list Z :=
  map (fun k => bucket p lo + Z.of_nat k * p)
      (seq 0 (S (Z.to_nat ((bucket p hi - bucket p lo) / p)))).

(** The cells of column [j] that fall in the bucket labelled [b] and are
    not missing, in row order. *)
Definition cells (p b : Z) (j : nat) (rs : list Row) : list Q :=
  flat_map
    (fun r =>
       if (b <=? fst r) && (fst r <? b + p)
       then match nth j (snd r) None with Some v => [v] | None => [] end
       else [])
    rs.

(** The aggregate of the values of one bucket; no value gives a missing
    cell. *)
Definition aggregate (a : Agg) (vs : list Q) : option Q :=
  match vs with
  | [] => None
  | v :: tl =>
      Some match a with
           | Mean => Np.mean vs
           | First => v
           | Max => fold_left Py.qmax tl v
           | Min => fold_left Py.qmin tl v
           | Median => Np.median vs
           end
  end.

Fixpoint insert_row (r : Row) (l : list Row) : list Row :=
  match l with
  | [] => [r]
  | u :: tl => if fst r <=? fst u then r :: l else u :: insert_row r tl
  end.

(** The rows in time order, rows of one timestamp in their given order
    (the grouper sorts an index that is not monotonic, stably). *)
Definition sort_rows (rs : list Row) : list Row :=
  fold_right (fun r acc => insert_row r acc) [] rs.

(** [df.resample(freq).agg(agg, numeric_only=True)] for a bucket width
    [p]: one row per bucket between the first and the last timestamp. *)
Definition resample (p : Z) (a : Agg) (df : Frame) : Frame :=
  let rs := sort_rows (rows df) in
  mkFrame (columns df)
    (map (fun b =>
            (b, map (fun j => aggregate a (cells p b j rs))
                    (seq 0 (List.length (columns df)))))
         (labels p (index_min rs) (index_max rs))).

Definition is_some {A} (o : option A) : bool :=
  match o with Some _ => true | None => false end.

(** [df.dropna(how='all')]: a row whose cells are all missing goes. *)
Definition dropna_all (df : Frame) : Frame :=
  mkFrame (columns df) (filter (fun r => existsb is_some (snd r)) (rows df)).

(** [_apply_time_filter_and_sampling]: [start_time], [end_time], [freq]
    and [agg] are what the routine reads from the widgets. *)
Definition _apply_time_filter_and_sampling
    (start_time end_time : Z) (freq : Freq) (agg : Agg) (df : Frame) : Frame :=
  if empty df then df
  else
    let df := time_filter start_time end_time df in
    if empty df then df
    else
      match period_ns freq with
      | None => df
      | Some p => dropna_all (resample p agg df)
      end.

End Resample.

(** ** Step detector: [_detect_steps] and the peak finder it calls *)

Module StepDetector.

Local Open Scope Q_scope.

(** [scipy.signal.find_peaks] is library code; the three stages that
    [_detect_steps] asks of it are modelled after its documented
    algorithm: local maxima, then the distance rule, then the prominence
    rule. *)

(** Local maxima of [x]. [scan i prev start l] reads [l = x[i:]] with
    [prev = x[i-1]]; [start = Some s] when a rise led to a plateau that
    began at [s] and still lasts. A fall after such a plateau records its
    middle; a plateau that touches either end of [x] is no peak. *)
Fixpoint scan (i : nat) (prev : Q) (start : option nat) (l : list Q) : list nat :=
  match l with
  | [] => []
  | c :: r =>
      if Py.Qlt_bool prev c then scan (S i) c (Some i) r
      else if Py.Qlt_bool c prev then
        match start with
        | Some s => ((s + (i - 1)) / 2)%nat :: scan (S i) c None r
        | None => scan (S i) c None r
        end
      else scan (S i) c start r
  end.

Definition local_maxima (x : list Q) : list nat :=
  match x with
  | [] => []
  | x0 :: r => scan 1 x0 None r
  end.

Fixpoint insert_by (v : nat * Q) (l : list (nat * Q)) : list (nat * Q) :=
  match l with
  | [] => [v]
  | u :: r => if Qle_bool (snd v) (snd u) then v :: l else u :: insert_by v r
  end.

(** [np.argsort(priority)]: the positions by increasing priority, equal
    priorities in their given order. *)
Definition argsort (priority : list Q) : list nat :=
  map fst (fold_right insert_by [] (combine (seq 0 (List.length priority)) priority)).

Definition absdiff (a b : nat) : nat := ((a - b) + (b - a))%nat.

(** A kept peak at position [j] rules out every other peak closer than
    [distance] samples. *)
Definition suppress (peaks : list nat) (distance j : nat) (keep : list bool)
  : list bool :=
  map (fun k =>
         nth k keep false
         && ((k =? j)%nat
             || negb (absdiff (nth k peaks O) (nth j peaks O) <? distance)%nat))
      (seq 0 (List.length peaks)).

(** The distance rule: peaks are visited from the highest to the lowest,
    and a peak that is still kept removes its close neighbours. *)
Definition select_by_peak_distance (peaks : list nat) (priority : list Q)
    (distance : nat) : list bool :=
  fold_left
    (fun keep j => if nth j keep false then suppress peaks distance j keep else keep)
    (rev (argsort priority))
    (repeat true (List.length peaks)).

(** Walking away from a peak of height [xp] while the signal stays at or
    below it; the lowest value met is the base on that side. *)
Fixpoint walk_min (xp cur : Q) (l : list Q) : Q :=
  match l with
  | [] => cur
  | y :: r => if Qle_bool y xp then walk_min xp (if Py.Qlt_bool y cur then y else cur) r
              else cur
  end.

(** The prominence of the peak at index [p]: its height above the higher
    of its two bases. *)
Definition prominence_of (x : list Q) (p : nat) : Q :=
  let xp := nth p x 0 in
  let left_min := walk_min xp xp (rev (firstn p x)) in
  let right_min := walk_min xp xp (skipn (S p) x) in
  xp - Py.qmax left_min right_min.

Definition select {A} (l : list A) (keep : list bool) : list A :=
  map fst (filter snd (combine l keep)).

(** [find_peaks(x, prominence=prominence, distance=distance)[0]] *)
Definition find_peaks (x : list Q) (prominence : Q) (distance : nat) : list nat :=
  let peaks := local_maxima x in
  let keep := select_by_peak_distance peaks (map (fun p => nth p x 0) peaks) distance in
  let peaks := select peaks keep in
  filter (fun p => Qle_bool prominence (prominence_of x p)) peaks.

(** The window of [rolling(window=3, min_periods=1, center=True)] at
    position [i]: the sample, its predecessor and its successor, as far as
    they exist. *)
Definition window3 (l : list Q) (i : nat) : list Q :=
  match i with
  | O => firstn 2 l
  | S k => firstn 3 (skipn k l)
  end.

Definition rolling_median3 (l : list Q) : list Q :=
  map (fun i => Np.median (window3 l i)) (seq 0 (List.length l)).

(** The floor of the adaptive threshold, [1e-6]. *)
Definition eps : Q := 1 # 1000000.

(** The median absolute deviation of the smoothed differences. *)
Definition mad_of (diff_s : list Q) : Q :=
  let m := Np.median diff_s in
  Np.median (map (fun d => Qabs (d - m)) diff_s).

(** The default [prominence]: [max(1e-6, 3 * mad)]. *)
Definition threshold (mad : Q) : Q := Py.qmax eps (3 * mad).

(** [_detect_steps(series, prominence=None, distance=5)]: the windows
    [(start, end)] around the accepted peaks, as indices into the series. *)
Definition _detect_steps (vals : list Q) (prominence : option Q) (distance : nat)
  : list (Z * Z) :=
  if (List.length vals <? 10)%nat then []
  else
    let diff := Np.diff vals in
    let diff_s := rolling_median3 diff in
    let mad := mad_of diff_s in
    let prominence :=
      match prominence with None => threshold mad | Some p => p end in
    let peaks := find_peaks (map Qabs diff_s) prominence distance in
    map (fun p => (Z.max 0 (Z.of_nat p - 8),
                   Z.min (Z.of_nat (List.length vals) - 1) (Z.of_nat p + 8)))
        peaks.

End StepDetector.

(** ** First-order identifier: the numeric steps of
       [estimate_pid_for_selected] *)

Module Identifier.

Local Open Scope Q_scope.

Definition zlen (vals : list Q) : Z := Z.of_nat (List.length vals).

(** [vals[max(0, start_idx-10):start_idx+1]] *)
Definition pre_window (vals : list Q) (start_idx : Z) : list Q :=
  Py.slice vals (Z.max 0 (start_idx - 10)) (start_idx + 1).

(** [vals[end_idx:min(len(vals)-1, end_idx+10)+1]] *)
Definition post_window (vals : list Q) (end_idx : Z) : list Q :=
  Py.slice vals end_idx (Z.min (zlen vals - 1) (end_idx + 10) + 1).

Definition pre_mean (vals : list Q) (start_idx : Z) : Q :=
  Np.mean (pre_window vals start_idx).

Definition post_mean (vals : list Q) (end_idx : Z) : Q :=
  Np.mean (post_window vals end_idx).

(** [y_segment = vals[start_idx:end_idx+1]] *)
Definition y_segment (vals : list Q) (start_idx end_idx : Z) : list Q :=
  Py.slice vals start_idx (end_idx + 1).

(** The gates of the loop body before the fit: a series of fewer than 30
    samples is skipped, so is one without a detected step, and so is a
    first window of fewer than 6 samples. What is left is the window that
    is fitted. *)
Definition accepted_window (vals : list Q) : option (Z * Z) :=
  if (List.length vals <? 30)%nat then None
  else
    match StepDetector._detect_steps vals None 5 with
    | [] => None
    | (start_idx, end_idx) :: _ =>
        if (List.length (y_segment vals start_idx end_idx) <? 6)%nat then None
        else Some (start_idx, end_idx)
    end.

(** The samples of [vals] at the indices [lo], [lo + 1], ..., [hi]. *)
Definition samples (vals : list Q) (lo hi : Z) : list Q :=
  map (fun k => nth k vals 0) (seq (Z.to_nat lo) (Z.to_nat (hi - lo + 1))).

(** The offset added to [tau] in the model, [1e-9]. *)
Definition tau_eps : Q := 1 # 1000000000.

(** A quotient whose divisor is zero has no value ([None]); numpy signals
    it with a warning and yields an infinity or NaN. *)
Definition divide (a b : Q) : option Q :=
  if Qeq_bool b 0 then None else Some (a / b).

Section Model.

(** [np.exp], kept abstract. *)
Variable np_exp : Q -> Q.

(** [first_order(t, K, tau, y0) = K * (1 - np.exp(-t / (tau + 1e-9))) + y0]
    at one instant [t]. *)
Definition first_order (t K tau y0 : Q) : option Q :=
  match divide (- t) (tau + tau_eps) with
  | None => None
  | Some u => Some (K * (1 - np_exp u) + y0)
  end.

End Model.




End Identifier.

(** ** Tuning heuristic, on binary64 floats *)

Module Tuning.

Local Open Scope float_scope.

(** The built-in [max(a, b)] on floats: [b] when [b > a], else [a]. *)
Definition py_max (a b : float) : float := if a <? b then b else a.

(** The guard [if abs(K_est) < 1e-9: K_est = 1e-9]. *)
Definition guard_gain (K_est : float) : float :=
  if abs K_est <? 1e-9 then 1e-9 else K_est.

Record Recommendation := mkRec { L_est : float; Kp_zn : float; Ti_zn : float; Td_zn : float }.

(** The lines from [L_est = max(0.0, 0.1 * tau_est)] to
    [Td_zn = 0.5 * L_est]. *)
Definition recommend (K_est tau_est : float) : Recommendation :=
  let L := py_max 0 (0.1 * tau_est) in
  let K := guard_gain K_est in
  let Kp := (1.2 * tau_est) / (abs K * (L + 1e-9)) in
  mkRec L Kp (2 * L) (0.5 * L).

End Tuning.

(** ** Causality ranking: [compute_granger] *)

Module Granger.

Local Open Scope Z_scope.

(** [maxlag = min(10, max(1, int(len(df_clean) / 5)))]; the quotient of a
    length by 5, truncated, is the integer quotient. *)
Definition maxlag (n : Z) : Z := Z.min 10 (Z.max 1 (n / 5)).

(** [clamp(x, lo, hi)] in the words of the specification: [x] brought
    back into the interval from [lo] to [hi]. *)
Definition clamp (x lo hi : Z) : Z :=
  if x <? lo then lo else if hi <? x then hi else x.

(** One line of the report: the best lag of an ordered pair with its
    p-value, or the text of the exception that the pair raised. *)
Inductive Line :=
| BestLag (x y : string) (lag : Z) (pvalue : Q)
| Error (x y : string) (msg : string).

Fixpoint insert_p (v : Z * Q) (l : list (Z * Q)) : list (Z * Q) :=
  match l with
  | [] => [v]
  | u :: r => if Qle_bool (snd v) (snd u) then v :: l else u :: insert_p v r
  end.

(** [sorted(pvals, key=lambda z: z[1])]: by increasing p-value, entries
    of one p-value in their given order. *)
Definition sorted_by_pvalue (pvals : list (Z * Q)) : list (Z * Q) :=
  fold_right insert_p [] pvals.

Section Run.

(** [statsmodels]' test is an outside collaborator. Given the two series
    (the predicted one first) and [maxlag] it either raises, which is the
    [inl] with the text of the exception, or returns one entry per lag;
    [inr] lists, in the order of the returned dict, each lag with
    [test_result[lag][0]['ssr_ftest'][1]]. *)
Variable grangercausalitytests : list Q -> list Q -> Z -> string + list (Z * Q).

(** The body of the double loop for the pair [(x, y)], with its
    [try]/[except]: taking the head of an empty sorted list raises too. *)
Definition pair_line (maxlag : Z) (x y : string * list Q) : Line :=
  match grangercausalitytests (snd y) (snd x) maxlag with
  | inl msg => Error (fst x) (fst y) msg
  | inr pvals =>
      match sorted_by_pvalue pvals with
      | best :: _ => BestLag (fst x) (fst y) (fst best) (snd best)
      | [] => Error (fst x) (fst y) "list index out of range"
      end
  end.

(** The double loop over the positions of the selected series,
    [i == j] passed over. *)
Definition out_lines (maxlag : Z) (cols : list (string * list Q)) : list Line :=
  flat_map
    (fun i =>
       flat_map
         (fun j =>
            if (i =? j)%nat then []
            else [pair_line maxlag (nth i cols (EmptyString, []))
                            (nth j cols (EmptyString, []))])
         (seq 0 (List.length cols)))
    (seq 0 (List.length cols)).

(** The number of rows of a cleaned table given by its columns. *)
Definition nrows (cols : list (string * list Q)) : Z :=
  match cols with
  | [] => 0
  | c :: _ => Z.of_nat (List.length (snd c))
  end.

(** [compute_granger] on the cleaned columns of the selected series, in
    selection order. [None] stands for the three early returns (no data
    loaded, fewer than two series selected, nothing left after cleaning),
    which write to the status bar only. *)
Definition compute_granger (merged_empty : bool) (df_clean : list (string * list Q))
  : option (list Line) :=
  if merged_empty then None
  else if (List.length df_clean <? 2)%nat then None
  else if (nrows df_clean =? 0) then None
  else Some (out_lines (maxlag (nrows df_clean)) df_clean).

End Run.

End Granger.

(** ** Fuzzy rule miner: [generate_fuzzy_rules] *)

Module Fuzzy.

Local Open Scope Q_scope.

Inductive Label := Low | Medium | High.

Definition label_eqb (a b : Label) : bool :=
  match a, b with
  | Low, Low | Medium, Medium | High, High => true
  | _, _ => false
  end.

Fixpoint labels_eqb (a b : list Label) : bool :=
  match a, b with
  | [], [] => true
  | x :: r, y :: s => label_eqb x y && labels_eqb r s
  | _, _ => false
  end.

(** The key of a counter: the antecedent tuple and the consequent. *)
Definition Key : Type := list Label * Label.

Definition key_eqb (a b : Key) : bool :=
  labels_eqb (fst a) (fst b) && label_eqb (snd a) (snd b).

(** The cleaned table: one list of cells per row, cell [k] belonging to
    the [k]-th selected series. *)
Definition Table : Type := list (list Q).

Definition column (k : nat) (df : Table) : list Q := map (fun row => nth k row 0) df.

(** [q_lo = df_clean.quantile(0.33)] and [q_hi = df_clean.quantile(0.66)],
    for column [k]. *)
Definition q_lo (df : Table) (k : nat) : Q := Np.quantile 33 100 (column k df).
Definition q_hi (df : Table) (k : nat) : Q := Np.quantile 66 100 (column k df).

(** [fuzzify_val(col, val)] *)
Definition fuzzify_val (df : Table) (col : nat) (val : Q) : Label :=
  if Qle_bool val (q_lo df col) then Low
  else if Qle_bool (q_hi df col) val then High
  else Medium.

(** [rules_count[key] = rules_count.get(key, 0) + 1] on a dict kept in
    insertion order. *)
Fixpoint bump (key : Key) (d : list (Key * nat)) : list (Key * nat) :=
  match d with
  | [] => [(key, 1%nat)]
  | (k, c) :: r => if key_eqb key k then (k, S c) :: r else (k, c) :: bump key r
  end.

(** The key of one row: a label per input (every selected series but the
    last) and the label of the output (the last one). *)
Definition row_key (df : Table) (nsel : nat) (row : list Q) : Key :=
  (map (fun col => fuzzify_val df col (nth col row 0)) (seq 0 (nsel - 1)),
   fuzzify_val df (nsel - 1) (nth (nsel - 1) row 0)).

(** The loop over the rows. *)
Definition rules_count (df : Table) (nsel : nat) : list (Key * nat) :=
  fold_left (fun d row => bump (row_key df nsel row) d) df [].

Fixpoint insert_rule (v : Key * nat) (l : list (Key * nat)) : list (Key * nat) :=
  match l with
  | [] => [v]
  | u :: r => if (snd u <=? snd v)%nat then v :: l else u :: insert_rule v r
  end.

(** [sorted(rules_count.items(), key=lambda x: x[1], reverse=True)]: by
    decreasing count, rules of one count in insertion order. *)
Definition sorted_rules (d : list (Key * nat)) : list (Key * nat) :=
  fold_right insert_rule [] d.

(** The sum of the support counts of a set of rules. *)
Definition total_support (d : list (Key * nat)) : nat :=
  fold_right (fun kc acc => (snd kc + acc)%nat) O d.

(** [rules_count.get(key, 0)] *)
Fixpoint support (d : list (Key * nat)) (key : Key) : nat :=
  match d with
  | [] => O
  | (k, c) :: r => if key_eqb key k then c else support r key
  end.

Inductive Outcome :=
| NoData               (** "load data first" *)
| TooFewSelected       (** "select at least 2 variables" *)
| Insufficient         (** "not enough data to generate rules" *)
| Rules (shown : list (Key * nat)).   (** the lines of the report *)

(** [generate_fuzzy_rules(top_k=20)] on the cleaned table of the
    [List.length selected] selected series. *)
Definition generate_fuzzy_rules (top_k : nat) (merged_empty : bool)
    (selected : list string) (df_clean : Table) : Outcome :=
  if merged_empty then NoData
  else if (List.length selected <? 2)%nat then TooFewSelected
  else
    match df_clean with
    | [] => Insufficient
    | _ => Rules (firstn top_k (sorted_rules (rules_count df_clean (List.length selected))))
    end.

End Fuzzy.

(** ** Short names: [get_short_name] and its cache *)

Module ShortName.

Local Open Scope string_scope.

(** [c in s] for a one-character [c]. *)
Definition has_char (c : ascii) (s : string) : bool :=
  existsb (Ascii.eqb c) (list_ascii_of_string s).

(** [s.lstrip()] *)
Fixpoint lstrip (s : string) : string :=
  match s with
  | EmptyString => EmptyString
  | String c r => if Py.isspace c then lstrip r else s
  end.

(** [s.rstrip()] *)
Fixpoint rstrip (s : string) : string :=
  match s with
  | EmptyString => EmptyString
  | String c r =>
      match rstrip r with
      | EmptyString => if Py.isspace c then EmptyString else String c EmptyString
      | r' => String c r'
      end
  end.

(** [s.strip()] *)
Definition strip (s : string) : string := rstrip (lstrip s).

(** What follows the first occurrence of [sep] (nothing when there is
    none): the rest of [s.split(sep)] after its first piece, joined. *)
Fixpoint after_first (sep : ascii) (s : string) : string :=
  match s with
  | EmptyString => EmptyString
  | String c r => if Ascii.eqb c sep then r else after_first sep r
  end.

(** [s.split(sep)[1]] for an [s] that holds [sep]: the piece between the
    first and the second occurrence. *)
Definition split_second (sep : ascii) (s : string) : string :=
  Py.split_first sep (after_first sep s).

Definition is_empty (s : string) : bool :=
  match s with EmptyString => true | _ => false end.

(** The body of [get_short_name] below the cache look-up. *)
Definition short_of (full_name : string) : string :=
  if has_char "(" full_name && has_char ")" full_name then
    let part0 := Py.split_first "(" full_name in
    if negb (is_empty (strip part0)) then strip part0
    else strip (Py.split_first ")" (split_second "(" full_name))
  else
    substring 0 15 full_name
    ++ (if (15 <? String.length full_name)%nat then "..." else "").

(** The dict [var_short_names], in insertion order. *)
Definition Cache : Type := list (string * string).

(** [get_short_name(full_name)]: the short name and the cache after the
    call. A name that is a key of the cache gets the cached value. *)
Definition get_short_name (cache : Cache) (full_name : string) : string * Cache :=
  match Loader.lookup full_name cache with
  | Some short => (short, cache)
  | None =>
      let short := short_of full_name in
      (short, (cache ++ [(full_name, short)])%list)
  end.

(** The calls of a loop such as that of [update_variable_list], one per
    name, threading the cache. *)
Fixpoint get_short_names (cache : Cache) (names : list string)
  : list string * Cache :=
  match names with
  | [] => ([], cache)
  | n :: r =>
      let '(s, cache1) := get_short_name cache n in
      let '(ss, cache2) := get_short_names cache1 r in
      (s :: ss, cache2)
  end.

End ShortName.

(** ** Time index hygiene: [_normalize_time_index] *)

Module TimeIndex.

Local Open Scope Z_scope.

(** [pd.Timestamp("1970-01-01").value] and
    [pd.Timestamp("2100-01-01").value], in nanoseconds. *)
Definition lower : Z := 0.
Definition upper : Z := 4102444800 * 1000000000.

(** [np.clip(t, lower, upper)] on one value. *)
Definition clip (t : Z) : Z := Z.min (Z.max t lower) upper.

(** [_normalize_time_index] on an index without time zone. *)
Definition _normalize_time_index (idx : list Z) : list Z := map clip idx.

End TimeIndex.

(** ** Export: [_build_current_dataframe] *)

Module Exporter.

Import Resample.

Fixpoint position (name : string) (cols : list string) : option nat :=
  match cols with
  | [] => None
  | c :: r =>
      if String.eqb name c then Some O
      else match position name r with Some k => Some (S k) | None => None end
  end.

(** [df[keep_cols]] for labels that are columns of [df] (a label names one
    column: the loader leaves no two columns of one label). *)
Definition select_columns (keep_cols : list string) (df : Frame) : Frame :=
  mkFrame keep_cols
    (map (fun r : Row =>
            (fst r,
             map (fun c => match position c (columns df) with
                           | Some k => nth k (snd r) None
                           | None => None
                           end)
                 keep_cols))
         (rows df)).

(** [df.sort_index()] *)
Definition sort_index (df : Frame) : Frame := mkFrame (columns df) (sort_rows (rows df)).

(** [pd.DataFrame()] *)
Definition no_frame : Frame := mkFrame [] [].

(** [_build_current_dataframe]: the current window, resampled as set,
    restricted to the selected variables, in time order. *)
Definition _build_current_dataframe (start_time end_time : Z) (freq : Freq)
    (agg : Agg) (selected_vars : list string) (merged_data : Frame) : Frame :=
  if empty merged_data then no_frame
  else
    match selected_vars with
    | [] => no_frame
    | _ =>
        let df := _apply_time_filter_and_sampling start_time end_time freq agg merged_data in
        if empty df then df
        else
          let keep_cols := filter (fun c => Py.mem c (columns df)) selected_vars in
          sort_index (select_columns keep_cols df)
    end.

End Exporter.

(** ** Initial guess of the fit, in [estimate_pid_for_selected] *)

Module Guess.

Local Open Scope Q_scope.

(** [(index - index[0]).total_seconds()]: seconds since the first row, for
    an index in nanoseconds. *)
Definition t_base (index : list Z) : list Q :=
  match index with
  | [] => []
  | t0 :: _ => map (fun t => inject_Z (t - t0) / inject_Z 1000000000) index
  end.

(** [t_segment = t_base[start_idx:end_idx+1] - t_base[start_idx]] *)
Definition t_segment (index : list Z) (start_idx end_idx : Z) : list Q :=
  let tb := t_base index in
  map (fun t => t - nth (Z.to_nat start_idx) tb 0) (Py.slice tb start_idx (end_idx + 1)).

(** [K_guess], [tau_guess], [y0_guess]: the vector [p0] of the fit. *)
Definition K_guess (vals : list Q) (start_idx end_idx : Z) : Q :=
  Identifier.post_mean vals end_idx - Identifier.pre_mean vals start_idx.

(** [max(1.0, (t_segment[-1] - t_segment[0]) / 3.0)] *)
Definition tau_guess (t_seg : list Q) : Q :=
  Py.qmax 1 ((last t_seg 0 - hd 0 t_seg) / 3).

Definition y0_guess (vals : list Q) (start_idx : Z) : Q :=
  Identifier.pre_mean vals start_idx.

End Guess.

(** ** Descriptive statistics: [compute_statistics] *)

Module Stats.

Local Open Scope Q_scope.

(** The cells of one selected series in the window that are not missing. *)
Definition valid (s : list (option Q)) : list Q :=
  flat_map (fun c => match c with Some v => [v] | None => [] end) s.

(** The row of the table for one series; [None] is NaN. The columns
    [std], [skew] and [kurtosis], which need roots, are left out. *)
Record Row := mkRow {
  count : nat;
  mean : option Q;
  min : option Q;
  q25 : option Q;
  q50 : option Q;
  q75 : option Q;
  max : option Q;
  missing_rate : option Q
}.

(** [x if s.count() else np.nan] *)
Definition guarded (s : list (option Q)) (x : list Q -> Q) : option Q :=
  match valid s with
  | [] => None
  | vs => Some (x vs)
  end.

Definition smallest (vs : list Q) : Q :=
  match vs with [] => 0 | v :: tl => fold_left Py.qmin tl v end.

Definition largest (vs : list Q) : Q :=
  match vs with [] => 0 | v :: tl => fold_left Py.qmax tl v end.

(** [float(s.isna().mean())]: the share of missing cells; NaN on a window
    without rows. *)
Definition isna_mean (s : list (option Q)) : option Q :=
  match s with
  | [] => None
  | _ => Some (inject_Z (Z.of_nat (List.length s - List.length (valid s)))
               / inject_Z (Z.of_nat (List.length s)))
  end.

(** The body of the loop of [compute_statistics] for one series. *)
Definition describe (s : list (option Q)) : Row :=
  mkRow (List.length (valid s))
        (guarded s Np.mean)
        (guarded s smallest)
        (guarded s (Np.quantile 25 100))
        (guarded s Np.median)
        (guarded s (Np.quantile 75 100))
        (guarded s largest)
        (isna_mean s).

End Stats.

(** ** Predicates of the statements, and sample inputs *)

(** Every element is (rationally) equal to [c]. *)
Definition AllEq (c : Q) (l : list Q) : Prop := Forall (fun x => (x == c)%Q) l.

(** The order of [sorted_by_pvalue]: by p-value. *)
Definition le_pvalue (a b : Z * Q) : Prop := (snd a <= snd b)%Q.

(** The file of the examples below: a time column, an unlabeled column as
    the CSV reader names it, and one sensor. *)
Definition sample_table : Loader.RawTable :=
  Loader.mkRaw ["time"; "Unnamed: 1"; "temp"]%string [0; 60]%Z.

(** One row, half a second after a full second, in the column
    ["a_temp"]. *)
Definition half_second : Resample.Frame :=
  Resample.mkFrame ["a_temp"%string] [(1500000000%Z, [Some 1%Q])].

(** A series of 43 samples: a level of 0 that ramps to 10 at the indices
    20..22, with one outlier on either side of the ramp (at 2 and 38). *)
Definition bumpy : list Q :=
  ([0; 0; 11] ++ repeat 0 17 ++ [2; 5; 8] ++ repeat 10 15 ++ [21] ++ repeat 10 4)%Q.

(** A stand-in for the test, for the examples: it raises on a predictor
    that starts with 0 and otherwise returns, for the lags 1..maxlag, the
    p-values [v / lag] with [v] the first value of the predictor. *)
Definition toy_test (y x : list Q) (m : Z) : string + list (Z * Q) :=
  match x with
  | [] => inl "empty series"%string
  | v :: _ =>
      if Qeq_bool v 0 then inl "singular matrix"%string
      else inr (map (fun k => (Z.of_nat k, (v / inject_Z (Z.of_nat k))%Q))
                    (seq 1 (Z.to_nat m)))
  end.

(** Three cleaned series of 12 rows. *)
Definition granger_sample : list (string * list Q) :=
  [("a_u"%string, repeat 1%Q 12); ("a_v"%string, repeat 0%Q 12);
   ("a_w"%string, repeat 3%Q 12)].

(** Four rows of two columns within four seconds; the last row holds no
    value. *)
Definition plant_log : Resample.Frame :=
  Resample.mkFrame ["a_temp"%string; "a_flow"%string]
    [(200000000%Z, [Some 1%Q; None]); (700000000%Z, [Some 3%Q; None]);
     (2100000000%Z, [None; Some 5%Q]); (3100000000%Z, [None; None])].

(** The order of the labels: low below medium below high. *)
Definition label_rank (l : Fuzzy.Label) : nat :=
  match l with Fuzzy.Low => 0 | Fuzzy.Medium => 1 | Fuzzy.High => 2 end.

(** The order of the report of the miner: by decreasing support. *)
Definition ge_support (a b : Fuzzy.Key * nat) : Prop := (snd b <= snd a)%nat.

(** Seven cleaned rows of an input and an output. *)
Definition fuzzy_sample : Fuzzy.Table :=
  [[1; 1]; [2; 2]; [3; 3]; [4; 4]; [5; 1]; [6; 6]; [1; 1]]%Q.

(** The interpolation of [Series.quantile] between two neighbours of the
    sorted values. *)
Definition interp (s : list Q) (lo : nat) (frac : Q) : Q :=
  (nth lo s 0 + (nth (S lo) s (nth lo s 0) - nth lo s 0) * frac)%Q.

(** The cells of one series in a window, with and without values. *)
Definition cells_sample : list (option Q) := [Some 4; None; Some 1; Some 3; Some 2]%Q.
Definition cells_missing : list (option Q) := [None; None; None].

(** Three cleaned rows whose second series is constant. *)
Definition constant_output : Fuzzy.Table := [[1; 7]; [2; 7]; [3; 7]]%Q.

(* ================================================================== *)
(** * Part II. Properties *)
(* ================================================================== *)

(** ** The model at work on small inputs *)

Section ModelExamples.

Local Open Scope Q_scope.

Example file_prefix_example :
  Loader.file_prefix "C:/data/run1.2024.csv" = "run1_"%string.
Proof. reflexivity. Qed.

Example median_example :
  Qred (Np.median [3; 1; 2]) = 2 /\ Qred (Np.median [4; 1; 3; 2]) = 5 # 2.
Proof. split; reflexivity. Qed.

(** Position [0.33 * 3 = 0.99] between the first two of four values. *)
Example quantile_example :
  Qred (Np.quantile 33 100 [4; 1; 3; 2]) = 199 # 100
  /\ Qred (Np.quantile 66 100 [4; 1; 3; 2]) = 149 # 50.
Proof. split; reflexivity. Qed.

(** A lone spike is smoothed away in the middle and halved at the edge. *)
Example rolling_median3_example :
  map Qred (StepDetector.rolling_median3 [0; 9; 0; 2; 3; 3; 2])
  = [9 # 2; 0; 2; 2; 3; 3; 5 # 2].
Proof. reflexivity. Qed.

(** Two single peaks, two plateaus and a plateau at neither end; with a
    distance of 3 the peak at 8 removes the one at 6, the one at 3 removes
    the one at 1. *)
Example find_peaks_example :
  StepDetector.local_maxima [0; 1; 0; 2; 2; 0; 3; 1; 5; 0; 0; 1; 1; 1; 0; 1]
  = [1; 3; 6; 8; 12]%nat
  /\ StepDetector.find_peaks [0; 1; 0; 2; 2; 0; 3; 1; 5; 0; 0; 1; 1; 1; 0; 1] (1 # 2) 3
     = [3; 8; 12]%nat.
Proof. split; reflexivity. Qed.

Example detect_steps_example :
  StepDetector._detect_steps bumpy None 5 = [(12, 28)%Z].
Proof. vm_compute. reflexivity. Qed.

(** Buckets of one second: the bucket at 1 s is empty and the one at 3 s
    holds only missing cells; both rows are dropped. *)
Example resample_example :
  Resample.rows
    (Resample._apply_time_filter_and_sampling 0 10000000000 Resample.S1 Resample.Max
       (Resample.mkFrame ["a"%string; "b"%string]
          [(200000000%Z, [Some 1; None]); (700000000%Z, [Some 3; None]);
           (2100000000%Z, [None; Some 5]); (3100000000%Z, [None; None])]))
  = [(0%Z, [Some 3; None]); (2000000000%Z, [None; Some 5])].
Proof. reflexivity. Qed.

(** Seven rows of an input and an output; the thresholds are 1.98 and 3.96
    for the input, 1 and 2.96 for the output. Sorting is by decreasing
    count and keeps rules of one count in the order they were first seen. *)
Example fuzzy_rules_example :
  Fuzzy.rules_count [[1; 1]; [2; 2]; [3; 3]; [4; 4]; [5; 1]; [6; 6]; [1; 1]] 2
  = [(([Fuzzy.Low], Fuzzy.Low), 2%nat); (([Fuzzy.Medium], Fuzzy.Medium), 1%nat);
     (([Fuzzy.Medium], Fuzzy.High), 1%nat); (([Fuzzy.High], Fuzzy.High), 2%nat);
     (([Fuzzy.High], Fuzzy.Low), 1%nat)]
  /\ Fuzzy.generate_fuzzy_rules 3 false ["x"%string; "y"%string]
       [[1; 1]; [2; 2]; [3; 3]; [4; 4]; [5; 1]; [6; 6]; [1; 1]]
     = Fuzzy.Rules
         [(([Fuzzy.Low], Fuzzy.Low), 2%nat); (([Fuzzy.High], Fuzzy.High), 2%nat);
          (([Fuzzy.Medium], Fuzzy.Medium), 1%nat)].
Proof. split; vm_compute; reflexivity. Qed.

End ModelExamples.

(** ** Dataset store *)

Section LoaderFacts.

Import Loader.
Local Open Scope string_scope.

Lemma mem_In (s : string) (l : list string) : Py.mem s l = true <-> In s l.
Proof.
  unfold Py.mem. rewrite existsb_exists. split.
  - intros [x [Hx He]]. apply String.eqb_eq in He. now subst.
  - intros H. exists s. split; [assumption | apply String.eqb_refl].
Qed.










End LoaderFacts.

(** ** Alignment and resampling *)

Section ResampleFacts.

Import Resample.
Local Open Scope Z_scope.

Lemma fold_min_le_init (l : list Z) (a : Z) : fold_left Z.min l a <= a.
Proof.
  revert a. induction l as [|x l IH]; intros a; simpl; [lia|].
  specialize (IH (Z.min a x)). lia.
Qed.

Lemma fold_min_le_In (l : list Z) (a x : Z) : In x l -> fold_left Z.min l a <= x.
Proof.
  revert a. induction l as [|y l IH]; intros a H; simpl in *; [contradiction|].
  destruct H as [->|H].
  - pose proof (fold_min_le_init l (Z.min a x)). lia.
  - now apply IH.
Qed.

Lemma fold_max_ge_init (l : list Z) (a : Z) : a <= fold_left Z.max l a.
Proof.
  revert a. induction l as [|x l IH]; intros a; simpl; [lia|].
  specialize (IH (Z.max a x)). lia.
Qed.

Lemma fold_max_ge_In (l : list Z) (a x : Z) : In x l -> x <= fold_left Z.max l a.
Proof.
  revert a. induction l as [|y l IH]; intros a H; simpl in *; [contradiction|].
  destruct H as [->|H].
  - pose proof (fold_max_ge_init l (Z.max a x)). lia.
  - now apply IH.
Qed.

Lemma index_min_le (rs : list Row) (r : Row) : In r rs -> index_min rs <= fst r.
Proof.
  destruct rs as [|r0 tl]; simpl; [contradiction|].
  intros [->|H]; [apply fold_min_le_init|].
  apply fold_min_le_In. now apply in_map.
Qed.

Lemma index_max_ge (rs : list Row) (r : Row) : In r rs -> fst r <= index_max rs.
Proof.
  destruct rs as [|r0 tl]; simpl; [contradiction|].
  intros [->|H]; [apply fold_max_ge_init|].
  apply fold_max_ge_In. now apply in_map.
Qed.

Lemma period_positive (f : Freq) (p : Z) : period_ns f = Some p -> 0 < p.
Proof.
  destruct f; simpl; intros H; inversion H; subst; reflexivity.
Qed.

Lemma bucket_bounds (p t : Z) : 0 < p -> bucket p t <= t < bucket p t + p.
Proof.
  intros Hp. unfold bucket.
  pose proof (Z.mul_div_le t p Hp). pose proof (Z.mod_pos_bound t p Hp).
  pose proof (Z.div_mod t p). lia.
Qed.

Lemma bucket_mono (p t u : Z) : 0 < p -> t <= u -> bucket p t <= bucket p u.
Proof.
  intros Hp H. unfold bucket. apply Z.mul_le_mono_nonneg_l; [lia|].
  now apply Z.div_le_mono.
Qed.

(** A multiple of [p] that has [t] in its bucket is the bucket of [t]. *)
Lemma bucket_unique (p m t : Z) : 0 < p -> p * m <= t < p * m + p -> p * m = bucket p t.
Proof.
  intros Hp H. unfold bucket. f_equal.
  apply Z.div_unique with (r := t - p * m); lia.
Qed.

Lemma labels_multiple (p lo hi b : Z) : In b (labels p lo hi) -> exists m, b = p * m.
Proof.
  unfold labels. rewrite in_map_iff. intros [k [Hk _]].
  exists (lo / p + Z.of_nat k). unfold bucket in Hk. lia.
Qed.

Lemma insert_row_In (r x : Row) (l : list Row) :
  In x (insert_row r l) <-> x = r \/ In x l.
Proof.
  induction l as [|u tl IH]; simpl.
  - intuition.
  - destruct (fst r <=? fst u); simpl; rewrite ?IH; intuition.
Qed.

Lemma sort_rows_In (x : Row) (rs : list Row) : In x (sort_rows rs) <-> In x rs.
Proof.
  unfold sort_rows. induction rs as [|r tl IH]; simpl; [tauto|].
  rewrite insert_row_In, IH. intuition.
Qed.

(** A bucket with a value in some column holds a row of the input. *)
Lemma cells_row (p b : Z) (j : nat) (rs : list Row) :
  cells p b j rs <> [] -> exists r, In r rs /\ b <= fst r < b + p.
Proof.
  unfold cells. induction rs as [|r tl IH]; simpl; [congruence|].
  destruct ((b <=? fst r) && (fst r <? b + p)) eqn:E.
  - intros _. exists r. split; [now left|].
    apply andb_true_iff in E. lia.
  - simpl. intros H. destruct (IH H) as [x [Hx Hb]]. exists x. auto.
Qed.

Lemma aggregate_some (a : Agg) (vs : list Q) : is_some (aggregate a vs) = true -> vs <> [].
Proof.
  destruct vs; simpl; congruence.
Qed.

(** Every row that survives [dropna] after [resample] is labelled by the
    bucket of an input row. *)
Lemma resample_row_origin (p : Z) (a : Agg) (df : Frame) (t : Z) (cs : list (option Q)) :
  0 < p -> In (t, cs) (rows (dropna_all (resample p a df))) ->
  existsb is_some cs = true /\ exists r, In r (rows df) /\ t = bucket p (fst r).
Proof.
  intros Hp H.
  change (rows (dropna_all (resample p a df)))
    with (filter (fun r : Row => existsb is_some (snd r)) (rows (resample p a df))) in H.
  apply filter_In in H. destruct H as [H Hsome]. cbn [snd] in Hsome.
  split; [exact Hsome|].
  unfold resample in H. cbn [rows] in H.
  apply in_map_iff in H. destruct H as [b [Hb Hlab]].
  inversion Hb; subst; clear Hb.
  apply existsb_exists in Hsome. destruct Hsome as [c [Hc Hs]].
  apply in_map_iff in Hc. destruct Hc as [j [Hj _]]. subst c.
  apply aggregate_some, cells_row in Hs. destruct Hs as [r [Hr Hin]].
  rewrite sort_rows_In in Hr.
  exists r. split; [exact Hr|].
  destruct (labels_multiple _ _ _ _ Hlab) as [m ->].
  now apply bucket_unique.
Qed.

(** C1, as stated, fails: resampled to one second, the only output row
    carries the left edge of its bucket, half a second before the first
    (and only) timestamp of the filtered input. *)
Lemma resample_label_before_first :
  index_min (rows (time_filter 0 10000000000 half_second)) = 1500000000
  /\ map fst (rows (_apply_time_filter_and_sampling 0 10000000000 S1 Mean half_second))
     = [1000000000]
  /\ 1000000000 < index_min (rows (time_filter 0 10000000000 half_second)).
Proof.
  repeat split.
Qed.

(** C1, amended: for every dataset with at least one column, every period
    and aggregator on offer, each timestamp of the resampled output is the
    left edge of the bucket of some row of the time-filtered input; hence
    it lies between the first input timestamp rounded down to a multiple
    of the period (less than one period before it) and the last input
    timestamp. Rows that are entirely missing after aggregation are
    dropped. *)
Theorem resample_span (start_time end_time : Z) (freq : Freq) (agg : Agg) (df : Frame)
    (p t : Z) (cs : list (option Q)) :
  empty df = false -> period_ns freq = Some p ->
  In (t, cs) (rows (_apply_time_filter_and_sampling start_time end_time freq agg df)) ->
  let input := rows (time_filter start_time end_time df) in
  (exists r, In r input /\ t = bucket p (fst r))
  /\ bucket p (index_min input) <= t <= index_max input
  /\ index_min input - p < t
  /\ existsb is_some cs = true.
Proof.
  intros He Hf Hin input. pose proof (period_positive _ _ Hf) as Hp.
  unfold _apply_time_filter_and_sampling in Hin. rewrite He in Hin.
  destruct (empty (time_filter start_time end_time df)) eqn:E.
  - exfalso. unfold empty in E.
    destruct (rows (time_filter start_time end_time df)) eqn:R; [contradiction|].
    simpl in E. unfold empty in He. destruct (rows df); [discriminate|].
    destruct (columns df); discriminate.
  - rewrite Hf in Hin.
    destruct (resample_row_origin _ _ _ _ _ Hp Hin) as [Hs [r [Hr Ht]]].
    fold input in Hr.
    pose proof (index_min_le _ _ Hr) as Hlo. pose proof (index_max_ge _ _ Hr) as Hhi.
    pose proof (bucket_bounds p (fst r) Hp) as Hb.
    pose proof (bucket_mono p _ _ Hp Hlo) as Hm.
    pose proof (bucket_bounds p (index_min input) Hp) as Hb0.
    repeat split; try lia; [|exact Hs].
    exists r. auto.
Qed.

Lemma resample_span_witness :
  (exists r, In r (rows (time_filter 0 10000000000 half_second))
             /\ 1000000000 = bucket 1000000000 (fst r))
  /\ bucket 1000000000 (index_min (rows (time_filter 0 10000000000 half_second)))
     <= 1000000000 <= index_max (rows (time_filter 0 10000000000 half_second))
  /\ index_min (rows (time_filter 0 10000000000 half_second)) - 1000000000 < 1000000000
  /\ existsb is_some [Some (Np.mean [1%Q])] = true.
Proof.
  apply (resample_span 0 10000000000 S1 Mean half_second 1000000000 1000000000
           [Some (Np.mean [1%Q])]).
  - reflexivity.
  - reflexivity.
  - vm_compute. left. reflexivity.
Defined.

End ResampleFacts.

(** ** Step detector *)

Section StepDetectorFacts.

Import StepDetector.
Local Open Scope Q_scope.

Lemma AllEq_nth (l : list Q) (k : nat) : AllEq 0 l -> nth k l 0 == 0.
Proof.
  intros H. revert k. induction H as [|x l Hx _ IH]; intros [|k]; simpl;
    try reflexivity; auto.
Qed.

Lemma AllEq_insert (c x : Q) (l : list Q) : x == c -> AllEq c l -> AllEq c (Np.insert x l).
Proof.
  intros Hx H. induction H as [|y l Hy H IH]; simpl.
  - repeat constructor. exact Hx.
  - destruct (Qle_bool x y); repeat constructor; auto.
Qed.

Lemma AllEq_sort (c : Q) (l : list Q) : AllEq c l -> AllEq c (Np.sort l).
Proof.
  intros H. unfold Np.sort. induction H as [|x l Hx H IH]; simpl.
  - constructor.
  - now apply AllEq_insert.
Qed.

Lemma median_zero (l : list Q) : AllEq 0 l -> Np.median l == 0.
Proof.
  intros H. apply AllEq_sort in H. unfold Np.median.
  destruct (Nat.even (List.length (Np.sort l))).
  - rewrite !AllEq_nth by assumption. reflexivity.
  - now apply AllEq_nth.
Qed.

Lemma AllEq_firstn (c : Q) (n : nat) (l : list Q) : AllEq c l -> AllEq c (firstn n l).
Proof.
  intros H. revert n. induction H as [|x l Hx H IH]; intros [|n]; simpl;
    constructor; [exact Hx | apply IH].
Qed.

Lemma AllEq_skipn (c : Q) (n : nat) (l : list Q) : AllEq c l -> AllEq c (skipn n l).
Proof.
  intros H. revert n. induction H as [|x l Hx H IH]; intros [|n]; simpl.
  - constructor.
  - constructor.
  - now constructor.
  - apply IH.
Qed.

Lemma rolling_median3_zero (l : list Q) : AllEq 0 l -> AllEq 0 (rolling_median3 l).
Proof.
  intros H. unfold rolling_median3. apply Forall_forall. intros x Hx.
  apply in_map_iff in Hx. destruct Hx as [i [<- _]].
  apply median_zero. destruct i as [|k]; unfold window3.
  - now apply AllEq_firstn.
  - now apply AllEq_firstn, AllEq_skipn.
Qed.

Lemma AllEq_abs (l : list Q) : AllEq 0 l -> AllEq 0 (map Qabs l).
Proof.
  intros H. induction H as [|x l Hx H IH]; simpl; constructor; auto.
  rewrite Hx. reflexivity.
Qed.

(** On a sequence without a rise the scan records nothing. *)
Lemma scan_flat (c : Q) (l : list Q) (i : nat) (prev : Q) :
  prev == c -> AllEq c l -> scan i prev None l = [].
Proof.
  intros Hp H. revert i prev Hp.
  induction H as [|x l Hx H IH]; intros i prev Hp; simpl; [reflexivity|].
  assert (Hle1 : Qle_bool x prev = true).
  { apply Qle_bool_iff. rewrite Hx, Hp. apply Qle_refl. }
  assert (Hle2 : Qle_bool prev x = true).
  { apply Qle_bool_iff. rewrite Hx, Hp. apply Qle_refl. }
  unfold Py.Qlt_bool. rewrite Hle1, Hle2. simpl. now apply IH.
Qed.

Lemma local_maxima_flat (c : Q) (x : list Q) : AllEq c x -> local_maxima x = [].
Proof.
  intros H. destruct H as [|x0 l H0 H]; simpl; [reflexivity|].
  now apply scan_flat with (c := c).
Qed.

Lemma find_peaks_flat (c : Q) (x : list Q) (prominence : Q) (distance : nat) :
  AllEq c x -> find_peaks x prominence distance = [].
Proof.
  intros H. unfold find_peaks. rewrite (local_maxima_flat c x H). reflexivity.
Qed.

(** The differences of a constant series are all zero. *)
Lemma diff_constant (v : Q) (vals : list Q) : AllEq v vals -> AllEq 0 (Np.diff vals).
Proof.
  intros H. induction H as [|a l Ha H IH]; [constructor|].
  destruct l as [|b r]; [constructor|].
  change (Np.diff (a :: b :: r)) with ((b - a) :: Np.diff (b :: r)).
  constructor; [|exact IH].
  inversion H; subst. rewrite Ha. match goal with Hb : b == v |- _ => rewrite Hb end.
  unfold Qminus. apply Qplus_opp_r.
Qed.

Lemma threshold_floor (mad : Q) : eps <= threshold mad /\ 0 < threshold mad.
Proof.
  assert (H : eps <= threshold mad).
  { unfold threshold, Py.qmax. destruct (Qle_bool (3 * mad) eps) eqn:E.
    - apply Qle_refl.
    - apply Qlt_le_weak. apply Qnot_le_lt. intros H.
      apply Qle_bool_iff in H. congruence. }
  split; [exact H|]. eapply Qlt_le_trans; [|exact H]. reflexivity.
Qed.

(** C7: on a perfectly flat series (all first differences zero) the
    smoothed differences are all zero, their MAD is zero, the threshold
    [max(eps, 3 * MAD)] is the positive floor [eps], and the detector
    returns no step window, whatever the distance. *)
Theorem detect_steps_flat (vals : list Q) (distance : nat) :
  AllEq 0 (Np.diff vals) ->
  AllEq 0 (map Qabs (rolling_median3 (Np.diff vals)))
  /\ threshold (mad_of (rolling_median3 (Np.diff vals))) = eps
  /\ 0 < eps
  /\ _detect_steps vals None distance = [].
Proof.
  intros H.
  pose proof (rolling_median3_zero _ H) as Hs.
  pose proof (AllEq_abs _ Hs) as Ha.
  repeat split.
  - exact Ha.
  - unfold threshold, Py.qmax, mad_of.
    assert (Hm : Np.median (map (fun d => Qabs (d - Np.median (rolling_median3 (Np.diff vals))))
                              (rolling_median3 (Np.diff vals))) == 0).
    { apply median_zero. apply Forall_forall. intros x Hx.
      apply in_map_iff in Hx. destruct Hx as [d [<- Hd]].
      rewrite (median_zero _ Hs).
      rewrite (proj1 (Forall_forall _ _) Hs d Hd). reflexivity. }
    assert (Hle : Qle_bool (3 * Np.median (map (fun d => Qabs (d - Np.median (rolling_median3 (Np.diff vals))))
                              (rolling_median3 (Np.diff vals)))) eps = true).
    { apply Qle_bool_iff. rewrite Hm. discriminate. }
    now rewrite Hle.
  - unfold _detect_steps. destruct (List.length vals <? 10)%nat; [reflexivity|].
    rewrite (find_peaks_flat 0 _ _ _ Ha). reflexivity.
Qed.

Lemma detect_steps_flat_witness :
  AllEq 0 (map Qabs (rolling_median3 (Np.diff (repeat (7 # 2) 40))))
  /\ threshold (mad_of (rolling_median3 (Np.diff (repeat (7 # 2) 40)))) = eps
  /\ 0 < eps
  /\ _detect_steps (repeat (7 # 2) 40) None 5 = [].
Proof.
  apply (detect_steps_flat (repeat (7 # 2) 40) 5).
  apply (diff_constant (7 # 2)). apply Forall_forall.
  intros x Hx. apply repeat_spec in Hx. subst. reflexivity.
Defined.

End StepDetectorFacts.

(** ** The windows the detector emits, and the steady values *)

Section WindowFacts.

Import StepDetector Identifier.

(** A recorded maximum lies before the position the scan has reached. *)
Lemma scan_bound (l : list Q) : forall (i : nat) (prev : Q) (start : option nat) (p : nat),
  (forall s, start = Some s -> s < i)%nat ->
  In p (scan i prev start l) -> (p < i + List.length l)%nat.
Proof.
  induction l as [|c r IH]; intros i prev start p Hs Hin;
    cbn [scan] in Hin; cbn [List.length]; [contradiction|].
  destruct (Py.Qlt_bool prev c).
  - apply IH in Hin; [lia|]. intros s Hs'. inversion Hs'. lia.
  - destruct (Py.Qlt_bool c prev).
    + destruct start as [s|].
      * destruct Hin as [<-|Hin].
        -- specialize (Hs s eq_refl).
           assert ((s + (i - 1)) / 2 < i)%nat; [|lia].
           apply Nat.Div0.div_lt_upper_bound. lia.
        -- apply IH in Hin; [lia|]. intros s' Hs'. discriminate.
      * apply IH in Hin; [lia|]. intros s' Hs'. discriminate.
    + apply IH in Hin; [lia|]. intros s Hs'. specialize (Hs s Hs'). lia.
Qed.

Lemma local_maxima_bound (x : list Q) (p : nat) :
  In p (local_maxima x) -> (p < List.length x)%nat.
Proof.
  destruct x as [|x0 r]; simpl; [contradiction|].
  intros H. apply scan_bound in H; [lia|]. intros s Hs. discriminate.
Qed.

Lemma select_In {A} (l : list A) (keep : list bool) (a : A) :
  In a (select l keep) -> In a l.
Proof.
  unfold select. intros H. apply in_map_iff in H. destruct H as [[b k] [<- H]].
  apply filter_In in H. destruct H as [H _]. now apply in_combine_l in H.
Qed.

Lemma find_peaks_bound (x : list Q) (prominence : Q) (distance p : nat) :
  In p (find_peaks x prominence distance) -> (p < List.length x)%nat.
Proof.
  unfold find_peaks. intros H. apply filter_In in H. destruct H as [H _].
  apply select_In in H. now apply local_maxima_bound.
Qed.

Lemma diff_length (l : list Q) : List.length (Np.diff l) = (List.length l - 1)%nat.
Proof.
  induction l as [|a [|b r] IH]; try reflexivity.
  change (Np.diff (a :: b :: r)) with ((b - a)%Q :: Np.diff (b :: r)).
  simpl List.length in *. rewrite IH. lia.
Qed.

(** A window of the detector lies inside the series, around its peak. *)
Lemma detect_steps_bounds (vals : list Q) (prominence : option Q) (distance : nat)
    (s e : Z) :
  In (s, e) (_detect_steps vals prominence distance) ->
  (0 <= s /\ s <= e /\ e <= zlen vals - 1)%Z.
Proof.
  unfold _detect_steps. destruct (List.length vals <? 10)%nat; [intros []|].
  intros H. apply in_map_iff in H. destruct H as [p [Hp H]].
  apply find_peaks_bound in H.
  rewrite length_map in H. unfold rolling_median3 in H.
  rewrite length_map, length_seq, diff_length in H.
  inversion Hp; subst. unfold zlen. lia.
Qed.

Lemma skipn_nth_cons {A} (d : A) (l : list A) : forall a : nat,
  (a < List.length l)%nat -> skipn a l = nth a l d :: skipn (S a) l.
Proof.
  induction l as [|x r IH]; intros a Ha; simpl in Ha; [lia|].
  destruct a as [|a]; [reflexivity|].
  simpl. apply IH. lia.
Qed.

(** A slice within bounds lists the samples at its indices. *)
Lemma firstn_skipn_seq {A} (d : A) (l : list A) (n : nat) : forall a : nat,
  (a + n <= List.length l)%nat ->
  firstn n (skipn a l) = map (fun k => nth k l d) (seq a n).
Proof.
  induction n as [|n IH]; intros a Ha; [reflexivity|].
  rewrite (skipn_nth_cons d) by lia. cbn [firstn seq map]. f_equal. apply IH. lia.
Qed.

Lemma slice_samples (vals : list Q) (lo hi : Z) :
  (0 <= lo)%Z -> (lo <= hi)%Z -> (hi <= zlen vals - 1)%Z ->
  Py.slice vals lo (hi + 1) = samples vals lo hi.
Proof.
  intros H0 H1 H2. unfold Py.slice, samples.
  replace (hi + 1 - lo)%Z with (hi - lo + 1)%Z by lia.
  apply firstn_skipn_seq. unfold zlen in H2. lia.
Qed.

Lemma samples_length (vals : list Q) (lo hi : Z) :
  List.length (samples vals lo hi) = Z.to_nat (hi - lo + 1).
Proof.
  unfold samples. now rewrite length_map, length_seq.
Qed.

Lemma accepted_window_detected (vals : list Q) (s e : Z) :
  accepted_window vals = Some (s, e) ->
  In (s, e) (_detect_steps vals None 5) /\ (30 <= List.length vals)%nat
  /\ (6 <= List.length (y_segment vals s e))%nat.
Proof.
  unfold accepted_window. destruct (List.length vals <? 30)%nat eqn:E30; [discriminate|].
  destruct (_detect_steps vals None 5) as [|[s0 e0] tl]; [discriminate|].
  destruct (List.length (y_segment vals s0 e0) <? 6)%nat eqn:E6; [discriminate|].
  intros H. inversion H; subst.
  apply Nat.ltb_ge in E30. apply Nat.ltb_ge in E6. repeat split; auto. now left.
Qed.

(** C4, amended: for every step window [(s, e)] accepted for fitting, the
    pre-step steady value is the mean of the samples at the indices
    [max(0, s - 10)] to [s], both included, and the post-step steady value
    is the mean of the samples at the indices [e] to
    [min(len - 1, e + 10)], both included: up to 11 samples each, never
    none, clamped to the series bounds. *)
Theorem steady_values_windows (vals : list Q) (s e : Z) :
  accepted_window vals = Some (s, e) ->
  let lo := Z.max 0 (s - 10) in
  let hi := Z.min (zlen vals - 1) (e + 10) in
  pre_mean vals s = Np.mean (samples vals lo s)
  /\ post_mean vals e = Np.mean (samples vals e hi)
  /\ List.length (pre_window vals s) = Z.to_nat (Z.min s 10 + 1)
  /\ List.length (post_window vals e) = Z.to_nat (Z.min (zlen vals - 1 - e) 10 + 1)
  /\ (1 <= List.length (pre_window vals s) <= 11)%nat
  /\ (1 <= List.length (post_window vals e) <= 11)%nat.
Proof.
  intros H lo hi. apply accepted_window_detected in H. destruct H as [H _].
  apply detect_steps_bounds in H. destruct H as [H0 [H1 H2]].
  assert (Hpre : pre_window vals s = samples vals lo s).
  { unfold pre_window. apply slice_samples; unfold lo; lia. }
  assert (Hpost : post_window vals e = samples vals e hi).
  { unfold post_window. apply slice_samples; unfold hi; lia. }
  unfold pre_mean, post_mean. rewrite Hpre, Hpost, !samples_length.
  unfold lo, hi. repeat split; try reflexivity; lia.
Qed.

End WindowFacts.

Section WindowExamples.

Import StepDetector Identifier.
Local Open Scope Q_scope.

Lemma steady_values_windows_witness :
  pre_mean bumpy 12 = Np.mean (samples bumpy (Z.max 0 (12 - 10)) 12)
  /\ post_mean bumpy 28 = Np.mean (samples bumpy 28 (Z.min (zlen bumpy - 1) (28 + 10)))
  /\ List.length (pre_window bumpy 12) = Z.to_nat (Z.min 12 10 + 1)
  /\ List.length (post_window bumpy 28) = Z.to_nat (Z.min (zlen bumpy - 1 - 28) 10 + 1)
  /\ (1 <= List.length (pre_window bumpy 12) <= 11)%nat
  /\ (1 <= List.length (post_window bumpy 28) <= 11)%nat.
Proof.
  apply (steady_values_windows bumpy 12 28). vm_compute. reflexivity.
Defined.

(** C4, as stated, fails: the window (12, 28) of [bumpy] is accepted for
    fitting; the pre-step value is the mean of the 11 samples 2..12, which
    is 1, whereas the 10 samples ending at the window start have the mean
    0 (start included) or 11/10 (start excluded); the post-step value is
    the mean of the 11 samples 28..38, which is 11, whereas the 10 samples
    starting at the window end have the mean 10 (end included) or 111/10
    (end excluded). *)
Lemma steady_values_use_eleven_samples :
  accepted_window bumpy = Some (12, 28)%Z
  /\ List.length (pre_window bumpy 12) = 11%nat
  /\ List.length (post_window bumpy 28) = 11%nat
  /\ Qred (pre_mean bumpy 12) = 1
  /\ Qred (Np.mean (Py.slice bumpy 3 13)) = 0
  /\ Qred (Np.mean (Py.slice bumpy 2 12)) = 11 # 10
  /\ Qred (post_mean bumpy 28) = 11
  /\ Qred (Np.mean (Py.slice bumpy 28 38)) = 10
  /\ Qred (Np.mean (Py.slice bumpy 29 39)) = 111 # 10.
Proof.
  repeat split; vm_compute; reflexivity.
Qed.

End WindowExamples.

(** ** First-order identifier: goodness of fit and the model *)

Section IdentifierFacts.

Import Identifier.
Local Open Scope Q_scope.







(** C8, as stated, fails: the model adds [1e-9] to [tau] and does not
    clamp it: at [tau = -1e-9], a value an unbounded fit may try, the
    divisor [tau + 1e-9] is zero. *)
Lemma first_order_divides_by_zero :
  first_order (fun u => 1 + u) 2 1 (- tau_eps) 0 = None
  /\ Qeq_bool (- tau_eps + tau_eps) 0 = true.
Proof.
  split; reflexivity.
Qed.

(** The model has no value exactly at [tau = -1e-9]. *)
Lemma first_order_none_iff (np_exp : Q -> Q) (t K tau y0 : Q) :
  first_order np_exp t K tau y0 = None <-> tau == - tau_eps.
Proof.
  unfold first_order, divide. destruct (Qeq_bool (tau + tau_eps) 0) eqn:E.
  - split; [intros _|reflexivity]. apply Qeq_bool_iff in E.
    setoid_replace tau with (tau + tau_eps - tau_eps) by ring.
    rewrite E. ring.
  - split; [discriminate|]. intros H. exfalso.
    apply Qeq_bool_neq in E. apply E. rewrite H. ring.
Qed.

Lemma nonneg_not_singular (tau : Q) : 0 <= tau -> ~ tau == - tau_eps.
Proof.
  intros Hpos H. rewrite H in Hpos. apply Qle_not_lt in Hpos. apply Hpos. reflexivity.
Qed.

(** C8, amended: the model offsets [tau] by [1e-9] and does not clamp it;
    its evaluation divides by zero at [tau = -1e-9] and nowhere else, so
    it never does for a [tau] that is zero or positive. *)
Theorem first_order_defined (np_exp : Q -> Q) (t K tau y0 : Q) :
  0 <= tau \/ ~ tau == - tau_eps ->
  first_order np_exp t K tau y0 = Some (K * (1 - np_exp (- t / (tau + tau_eps))) + y0).
Proof.
  intros H.
  assert (Hn : ~ tau == - tau_eps).
  { destruct H as [H|H]; [now apply nonneg_not_singular|exact H]. }
  pose proof (first_order_none_iff np_exp t K tau y0) as Hiff.
  unfold first_order, divide in *.
  destruct (Qeq_bool (tau + tau_eps) 0); [|reflexivity].
  exfalso. apply Hn. now apply Hiff.
Qed.

Lemma first_order_defined_witness :
  first_order (fun u => 1 + u) 3 5 0 2
  = Some (5 * (1 - (fun u => 1 + u) (- (3) / (0 + tau_eps))) + 2).
Proof.
  apply (first_order_defined (fun u => 1 + u) 3 5 0 2).
  left. discriminate.
Defined.

End IdentifierFacts.

(** ** Tuning heuristic *)

Section TuningFacts.

Import Tuning.
Local Open Scope float_scope.

(** [max(0.0, x)] is never below zero, also when [x] is NaN. *)
Lemma py_max_zero_nonneg (x : float) : (py_max 0 x <? 0) = false.
Proof.
  unfold py_max. destruct (0 <? x) eqn:E; [|reflexivity].
  rewrite ltb_spec in *. unfold SFltb, SFcompare in *.
  change (Prim2SF 0) with (S754_zero false) in *.
  destruct (Prim2SF x) as [s|s| |s m e]; try discriminate; try reflexivity;
    destruct s; try discriminate; reflexivity.
Qed.

(** After the guard the gain is not nearer to zero than the floor. *)
Lemma guard_gain_floor (K_est : float) : (abs (guard_gain K_est) <? 1e-9) = false.
Proof.
  unfold guard_gain. destruct (abs K_est <? 1e-9) eqn:E; [reflexivity|exact E].
Qed.

(** C5: the recommendation is [L = max(0, 0.1 tau)], which is never
    negative, [Kp = 1.2 tau / (|K'| (L + 1e-9))] where [K'] is [K] unless
    [|K| < 1e-9], in which case it is the floor [1e-9], [Ti = 2 L] and
    [Td = 0.5 L]. In binary64 arithmetic [K = 5], [tau = 10] give exactly
    [L = 1], [Ti = 2], [Td = 0.5], and [Kp = 2.3999999975999997], which is
    within [1e-8] of [2.4]. *)
Theorem recommend_formulas (K_est tau_est : float) :
  let r := recommend K_est tau_est in
  let K' := if abs K_est <? 1e-9 then 1e-9 else K_est in
  L_est r = py_max 0 (0.1 * tau_est)
  /\ (L_est r <? 0) = false
  /\ (abs K' <? 1e-9) = false
  /\ Kp_zn r = (1.2 * tau_est) / (abs K' * (L_est r + 1e-9))
  /\ Ti_zn r = 2 * L_est r
  /\ Td_zn r = 0.5 * L_est r
  /\ L_est (recommend 5 10) = 1
  /\ Ti_zn (recommend 5 10) = 2
  /\ Td_zn (recommend 5 10) = 0.5
  /\ Kp_zn (recommend 5 10) = 2.3999999975999997
  /\ (abs (Kp_zn (recommend 5 10) - 2.4) <? 1e-8) = true
  /\ Kp_zn (recommend 0 10) = (1.2 * 10) / (1e-9 * (1 + 1e-9)).
Proof.
  cbv zeta. split; [reflexivity|].
  split; [apply py_max_zero_nonneg|].
  split; [apply guard_gain_floor|].
  repeat split; vm_compute; reflexivity.
Qed.

End TuningFacts.

(** ** Causality ranking *)

Section GrangerFacts.

Import Granger.
Local Open Scope Z_scope.

Lemma maxlag_clamp (n : Z) : maxlag n = clamp (n / 5) 1 10 /\ 1 <= maxlag n <= 10.
Proof.
  unfold maxlag, clamp.
  destruct (n / 5 <? 1) eqn:E1; destruct (10 <? n / 5) eqn:E2;
    try apply Z.ltb_lt in E1; try apply Z.ltb_ge in E1;
    try apply Z.ltb_lt in E2; try apply Z.ltb_ge in E2; lia.
Qed.

Lemma insert_p_In (v x : Z * Q) (l : list (Z * Q)) :
  In x (insert_p v l) <-> x = v \/ In x l.
Proof.
  induction l as [|u r IH]; simpl.
  - intuition.
  - destruct (Qle_bool (snd v) (snd u)); simpl; rewrite ?IH; intuition.
Qed.

Lemma sorted_by_pvalue_In (x : Z * Q) (l : list (Z * Q)) :
  In x (sorted_by_pvalue l) <-> In x l.
Proof.
  unfold sorted_by_pvalue. induction l as [|v r IH]; simpl; [tauto|].
  rewrite insert_p_In, IH. intuition.
Qed.

Lemma insert_p_sorted (v : Z * Q) (l : list (Z * Q)) :
  StronglySorted le_pvalue l -> StronglySorted le_pvalue (insert_p v l).
Proof.
  intros H. induction H as [|u r Hs IH Hall]; simpl.
  - repeat constructor.
  - destruct (Qle_bool (snd v) (snd u)) eqn:E.
    + apply Qle_bool_iff in E. constructor; [now constructor|].
      constructor; [exact E|].
      eapply Forall_impl; [|exact Hall]. intros a Ha.
      unfold le_pvalue in *. eapply Qle_trans; eauto.
    + constructor; [exact IH|].
      apply Forall_forall. intros a Ha. apply insert_p_In in Ha.
      destruct Ha as [->|Ha].
      * unfold le_pvalue. apply Qlt_le_weak, Qnot_le_lt.
        intros C. apply Qle_bool_iff in C. congruence.
      * exact (proj1 (Forall_forall _ _) Hall a Ha).
Qed.

Lemma sorted_by_pvalue_sorted (l : list (Z * Q)) :
  StronglySorted le_pvalue (sorted_by_pvalue l).
Proof.
  unfold sorted_by_pvalue. induction l as [|v r IH]; simpl; [constructor|].
  now apply insert_p_sorted.
Qed.

(** The head of the sorted list is an entry of least p-value. *)
Lemma sorted_head_least (pvals : list (Z * Q)) (best : Z * Q) (rest : list (Z * Q)) :
  sorted_by_pvalue pvals = best :: rest ->
  In best pvals /\ forall v, In v pvals -> (snd best <= snd v)%Q.
Proof.
  intros H. split.
  - apply sorted_by_pvalue_In. rewrite H. now left.
  - intros v Hv. apply sorted_by_pvalue_In in Hv. rewrite H in Hv.
    pose proof (sorted_by_pvalue_sorted pvals) as Hs. rewrite H in Hs.
    inversion Hs; subst. destruct Hv as [<-|Hv]; [apply Qle_refl|].
    exact (proj1 (Forall_forall _ _) H3 v Hv).
Qed.

End GrangerFacts.

Section GrangerReport.

Import Granger.
Local Open Scope Z_scope.

Variable test : list Q -> list Q -> Z -> string + list (Z * Q).

(** What the loop body yields for one pair: the text of the exception when
    the test raises, and otherwise an entry of least p-value. *)
Lemma pair_line_cases (m : Z) (x y : string * list Q) :
  (forall msg, test (snd y) (snd x) m = inl msg ->
               pair_line test m x y = Error (fst x) (fst y) msg)
  /\ (forall pvals, test (snd y) (snd x) m = inr pvals -> pvals <> [] ->
        exists lag p,
          pair_line test m x y = BestLag (fst x) (fst y) lag p
          /\ In (lag, p) pvals
          /\ forall lag' p', In (lag', p') pvals -> (p <= p')%Q).
Proof.
  unfold pair_line. split.
  - intros msg ->. reflexivity.
  - intros pvals -> Hne.
    destruct (sorted_by_pvalue pvals) as [|[lag p] rest] eqn:E.
    + exfalso. destruct pvals as [|v r]; [congruence|].
      assert (In v (sorted_by_pvalue (v :: r))) as Hin
        by (apply sorted_by_pvalue_In; now left).
      rewrite E in Hin. exact Hin.
    + exists lag, p. destruct (sorted_head_least _ _ _ E) as [Hin Hmin].
      repeat split; [exact Hin|].
      intros lag' p' H'. exact (Hmin _ H').
Qed.

Lemma inner_loop_length {A} (g : nat -> A) (i k : nat) : forall a : nat,
  List.length (flat_map (fun j => if (i =? j)%nat then [] else [g j]) (seq a k))
  = (k - (if ((a <=? i) && (i <? a + k))%nat then 1 else 0))%nat.
Proof.
  induction k as [|k IH]; intros a.
  - reflexivity.
  - cbn [seq flat_map]. rewrite length_app, IH.
    destruct (Nat.eq_dec i a) as [->|Hne].
    + rewrite Nat.eqb_refl. cbn [List.length].
      replace ((S a <=? a) && (a <? S a + k))%nat with false.
      2:{ symmetry. apply andb_false_iff. left. apply Nat.leb_gt. lia. }
      replace ((a <=? a) && (a <? a + S k))%nat with true.
      2:{ symmetry. apply andb_true_iff. split; [apply Nat.leb_le | apply Nat.ltb_lt]; lia. }
      lia.
    + apply Nat.eqb_neq in Hne. rewrite Hne. cbn [List.length].
      apply Nat.eqb_neq in Hne.
      destruct ((a <=? i) && (i <? a + S k))%nat eqn:E2.
      * apply andb_true_iff in E2. destruct E2 as [E2 E3].
        apply Nat.leb_le in E2. apply Nat.ltb_lt in E3.
        replace ((S a <=? i) && (i <? S a + k))%nat with true; [lia|].
        symmetry. apply andb_true_iff. split; [apply Nat.leb_le | apply Nat.ltb_lt]; lia.
      * replace ((S a <=? i) && (i <? S a + k))%nat with false; [lia|].
        symmetry. apply andb_false_iff. apply andb_false_iff in E2.
        destruct E2 as [E2|E2]; [left; apply Nat.leb_gt in E2; apply Nat.leb_gt; lia
                                |right; apply Nat.ltb_ge in E2; apply Nat.ltb_ge; lia].
Qed.

Lemma flat_map_constant_length {A B} (f : A -> list B) (m : nat) (l : list A) :
  (forall x, In x l -> List.length (f x) = m) ->
  List.length (flat_map f l) = (List.length l * m)%nat.
Proof.
  induction l as [|x r IH]; intros H; simpl; [reflexivity|].
  rewrite length_app, (H x), IH.
  - reflexivity.
  - intros y Hy. apply H. now right.
  - now left.
Qed.

Lemma out_lines_length (m : Z) (cols : list (string * list Q)) :
  List.length (out_lines test m cols)
  = (List.length cols * (List.length cols - 1))%nat.
Proof.
  unfold out_lines.
  rewrite (flat_map_constant_length _ (List.length cols - 1)).
  - now rewrite length_seq.
  - intros i Hi. apply in_seq in Hi. rewrite inner_loop_length.
    replace ((0 <=? i) && (i <? 0 + List.length cols))%nat with true; [reflexivity|].
    symmetry. apply andb_true_iff. split; [now apply Nat.leb_le | apply Nat.ltb_lt; lia].
Qed.

Lemma out_lines_pair (m : Z) (cols : list (string * list Q)) (i j : nat) :
  (i < List.length cols)%nat -> (j < List.length cols)%nat -> i <> j ->
  In (pair_line test m (nth i cols (EmptyString, [])) (nth j cols (EmptyString, [])))
     (out_lines test m cols).
Proof.
  intros Hi Hj Hij. unfold out_lines.
  apply in_flat_map. exists i. split; [apply in_seq; lia|].
  apply in_flat_map. exists j. split; [apply in_seq; lia|].
  apply Nat.eqb_neq in Hij. rewrite Hij. now left.
Qed.

(** C9: on cleaned data of [n] rows the maximum lag is
    [clamp(floor(n / 5), 1, 10)]; the report has one line for every
    ordered pair of distinct selected series and nothing else; the line of
    a pair whose test raises is the error text of that pair, and the line
    of a pair whose test returns p-values reports one of the tested lags
    with a p-value that none of the others undercuts. Whether one pair
    fails has no bearing on the lines of the other pairs. *)
Theorem compute_granger_report (merged_empty : bool) (df_clean : list (string * list Q))
    (lines : list Line) :
  compute_granger test merged_empty df_clean = Some lines ->
  let n := nrows df_clean in
  let k := List.length df_clean in
  maxlag n = clamp (n / 5) 1 10
  /\ List.length lines = (k * (k - 1))%nat
  /\ forall i j, (i < k)%nat -> (j < k)%nat -> i <> j ->
       let x := nth i df_clean (EmptyString, []) in
       let y := nth j df_clean (EmptyString, []) in
       In (pair_line test (maxlag n) x y) lines
       /\ (forall msg, test (snd y) (snd x) (maxlag n) = inl msg ->
             pair_line test (maxlag n) x y = Error (fst x) (fst y) msg)
       /\ (forall pvals, test (snd y) (snd x) (maxlag n) = inr pvals -> pvals <> [] ->
             exists lag p,
               pair_line test (maxlag n) x y = BestLag (fst x) (fst y) lag p
               /\ In (lag, p) pvals
               /\ forall lag' p', In (lag', p') pvals -> (p <= p')%Q).
Proof.
  intros H n k. unfold compute_granger in H.
  destruct merged_empty; [discriminate|].
  destruct (List.length df_clean <? 2)%nat; [discriminate|].
  destruct (nrows df_clean =? 0); [discriminate|].
  inversion H; subst lines; clear H.
  split; [apply maxlag_clamp|].
  split; [apply out_lines_length|].
  intros i j Hi Hj Hij x y.
  split; [now apply out_lines_pair|].
  apply pair_line_cases.
Qed.

End GrangerReport.

Section GrangerExamples.

Import Granger.
Local Open Scope Z_scope.

Lemma compute_granger_report_witness :
  compute_granger toy_test false granger_sample
  = Some [BestLag "a_u" "a_v" 2 (1 / 2); BestLag "a_u" "a_w" 2 (1 / 2);
          Error "a_v" "a_u" "singular matrix"; Error "a_v" "a_w" "singular matrix";
          BestLag "a_w" "a_u" 2 (3 / 2); BestLag "a_w" "a_v" 2 (3 / 2)]
  /\ maxlag (nrows granger_sample) = clamp (nrows granger_sample / 5) 1 10
  /\ List.length
       [BestLag "a_u" "a_v" 2 (1 / 2); BestLag "a_u" "a_w" 2 (1 / 2);
        Error "a_v" "a_u" "singular matrix"; Error "a_v" "a_w" "singular matrix";
        BestLag "a_w" "a_u" 2 (3 / 2); BestLag "a_w" "a_v" 2 (3 / 2)]
     = (List.length granger_sample * (List.length granger_sample - 1))%nat.
Proof.
  split; [reflexivity|].
  destruct (compute_granger_report toy_test false granger_sample _ eq_refl)
    as [H1 [H2 _]].
  split; [exact H1 | exact H2].
Defined.

End GrangerExamples.

(** ** Fuzzy rule miner *)

Section FuzzyFacts.

Import Fuzzy.

Lemma label_eqb_eq (a b : Label) : label_eqb a b = true <-> a = b.
Proof.
  destruct a, b; simpl; split; intros H; try reflexivity; discriminate.
Qed.

Lemma labels_eqb_eq (a : list Label) : forall b, labels_eqb a b = true <-> a = b.
Proof.
  induction a as [|x r IH]; intros [|y s]; simpl; split; intros H;
    try reflexivity; try discriminate.
  - apply andb_true_iff in H. destruct H as [H1 H2].
    apply label_eqb_eq in H1. apply IH in H2. now subst.
  - inversion H; subst. apply andb_true_iff. split.
    + now apply label_eqb_eq.
    + now apply IH.
Qed.

Lemma key_eqb_eq (a b : Key) : key_eqb a b = true <-> a = b.
Proof.
  destruct a as [a1 a2], b as [b1 b2]. unfold key_eqb. simpl.
  rewrite andb_true_iff, labels_eqb_eq, label_eqb_eq.
  split; [intros [-> ->]; reflexivity | intros H; inversion H; auto].
Qed.

(** One [bump] adds one to the total. *)
Lemma total_bump (key : Key) (d : list (Key * nat)) :
  total_support (bump key d) = S (total_support d).
Proof.
  induction d as [|[k c] r IH]; simpl; [reflexivity|].
  destruct (key_eqb key k); simpl; [reflexivity|]. rewrite IH. lia.
Qed.

(** One [bump] adds one to the counter of its key and leaves every other
    counter as it was. *)
Lemma support_bump (key key' : Key) (d : list (Key * nat)) :
  support (bump key d) key'
  = if key_eqb key' key then S (support d key') else support d key'.
Proof.
  induction d as [|[k c] r IH]; simpl.
  - destruct (key_eqb key' key); reflexivity.
  - destruct (key_eqb key k) eqn:E; simpl.
    + apply key_eqb_eq in E. subst k. destruct (key_eqb key' key); reflexivity.
    + rewrite IH. destruct (key_eqb key' k) eqn:E1; [|reflexivity].
      destruct (key_eqb key' key) eqn:E2; [|reflexivity].
      apply key_eqb_eq in E1, E2. subst. rewrite (proj2 (key_eqb_eq k k) eq_refl) in E.
      discriminate.
Qed.

Lemma total_rules_loop (f : list Q -> Key) (rows : list (list Q)) :
  forall d, total_support (fold_left (fun d row => bump (f row) d) rows d)
            = (total_support d + List.length rows)%nat.
Proof.
  induction rows as [|row r IH]; intros d; simpl; [lia|].
  rewrite IH, total_bump. lia.
Qed.

Lemma total_insert_rule (v : Key * nat) (l : list (Key * nat)) :
  total_support (insert_rule v l) = (snd v + total_support l)%nat.
Proof.
  induction l as [|u r IH]; simpl; [reflexivity|].
  destruct (snd u <=? snd v)%nat; simpl; [reflexivity|]. rewrite IH. lia.
Qed.

Lemma total_sorted_rules (d : list (Key * nat)) :
  total_support (sorted_rules d) = total_support d.
Proof.
  unfold sorted_rules. induction d as [|v r IH]; simpl; [reflexivity|].
  now rewrite total_insert_rule, IH.
Qed.

(** C10: every cleaned row bumps exactly one counter, that of its key, by
    one; so the support counts of the mined rules, before and after they
    are sorted, add up to the number of cleaned rows. *)
Theorem support_counts_sum (df_clean : Table) (nsel : nat) :
  total_support (rules_count df_clean nsel) = List.length df_clean
  /\ total_support (sorted_rules (rules_count df_clean nsel)) = List.length df_clean
  /\ forall (row : list Q) (d : list (Key * nat)) (key' : Key),
       let key := row_key df_clean nsel row in
       total_support (bump key d) = S (total_support d)
       /\ support (bump key d) key'
          = if key_eqb key' key then S (support d key') else support d key'.
Proof.
  assert (H : total_support (rules_count df_clean nsel) = List.length df_clean).
  { unfold rules_count. now rewrite total_rules_loop. }
  repeat split.
  - exact H.
  - now rewrite total_sorted_rules.
  - apply total_bump.
  - apply support_bump.
Qed.

(** The report shows every mined rule when there are at most [top_k] of
    them; its counts then add up to the number of cleaned rows. *)
Lemma shown_rules_sum (top_k : nat) (selected : list string) (row : list Q) (rest : Table) :
  (2 <= List.length selected)%nat ->
  (List.length (rules_count (row :: rest) (List.length selected)) <= top_k)%nat ->
  exists shown,
    generate_fuzzy_rules top_k false selected (row :: rest) = Rules shown
    /\ total_support shown = List.length (row :: rest).
Proof.
  intros Hsel Hk. unfold generate_fuzzy_rules.
  apply Nat.ltb_ge in Hsel. rewrite Hsel. eexists. split; [reflexivity|].
  rewrite firstn_all2.
  - rewrite total_sorted_rules. unfold rules_count. now rewrite total_rules_loop.
  - assert (Hlen : forall d, List.length (sorted_rules d) = List.length d).
    { unfold sorted_rules. induction d as [|v r IH]; simpl; [reflexivity|].
      rewrite <- IH. generalize (fold_right insert_rule [] r). intros l.
      induction l as [|u t IHl]; simpl; [reflexivity|].
      destruct (snd u <=? snd v)%nat; simpl; [reflexivity|]. now rewrite IHl. }
    now rewrite Hlen.
Qed.

(** On a table of one row both quantiles are the value of the row, which
    therefore is labelled low. *)
Lemma fuzzify_single_row (row : list Q) (col : nat) :
  fuzzify_val [row] col (nth col row 0) = Low.
Proof.
  unfold fuzzify_val, q_lo, column, Np.quantile. simpl.
  replace (Qle_bool _ _) with true; [reflexivity|].
  symmetry. apply Qle_bool_iff.
  setoid_replace (nth col row 0 + (nth col row 0 - nth col row 0) * (0 / inject_Z 100))%Q
    with (nth col row 0) by ring.
  apply Qle_refl.
Qed.

Lemma labels_single (row : list Q) (n : nat) : forall a : nat,
  map (fun col => fuzzify_val [row] col (nth col row 0)) (seq a n) = repeat Low n.
Proof.
  induction n as [|n IH]; intros a; cbn [seq map repeat]; [reflexivity|].
  now rewrite fuzzify_single_row, IH.
Qed.

Lemma row_key_single (row : list Q) (nsel : nat) :
  row_key [row] nsel row = (repeat Low (nsel - 1), Low).
Proof.
  unfold row_key. now rewrite fuzzify_single_row, labels_single.
Qed.

(** C3, as stated, fails: one cleaned row is fewer than 2 rows, and the
    miner neither reports insufficient data nor returns no rules: it
    reports the rule (low) -> low with support 1. *)
Lemma fuzzy_rules_from_one_row :
  generate_fuzzy_rules 20 false ["a_x"%string; "a_y"%string] [[1; 2]%Q]
  = Rules [(([Low], Low), 1%nat)].
Proof.
  reflexivity.
Qed.

(** C3, amended: for every fuzzy-rule-mining invocation (data loaded, at
    least two series selected) the miner reports insufficient data and
    returns no rules exactly when the cleaned data has no row. On a single
    cleaned row it runs, and reports the one rule (low, ..., low) -> low
    with support 1. *)
Theorem fuzzy_insufficient_iff_empty (top_k : nat) (selected : list string)
    (df_clean : Table) :
  (2 <= List.length selected)%nat ->
  (generate_fuzzy_rules top_k false selected df_clean = Insufficient <-> df_clean = [])
  /\ forall row,
       generate_fuzzy_rules (S top_k) false selected [row]
       = Rules [((repeat Low (List.length selected - 1), Low), 1%nat)].
Proof.
  intros Hsel. apply Nat.ltb_ge in Hsel. unfold generate_fuzzy_rules. rewrite Hsel.
  split.
  - destruct df_clean; split; intros H; try reflexivity; discriminate.
  - intros row. unfold rules_count. cbn [fold_left].
    rewrite row_key_single. unfold sorted_rules.
    cbn [bump fold_right insert_rule firstn]. now rewrite firstn_nil.
Qed.

Lemma fuzzy_insufficient_iff_empty_witness :
  (generate_fuzzy_rules 20 false ["a_x"%string; "a_y"%string] [] = Insufficient
   <-> @nil (list Q) = [])
  /\ forall row,
       generate_fuzzy_rules 21 false ["a_x"%string; "a_y"%string] [row]
       = Rules [((repeat Low (List.length ["a_x"%string; "a_y"%string] - 1), Low), 1%nat)].
Proof.
  apply (fuzzy_insufficient_iff_empty 20 ["a_x"%string; "a_y"%string] []).
  simpl. lia.
Defined.

End FuzzyFacts.

(* ================================================================== *)
(** * Part III. Further properties of the code *)
(* ================================================================== *)

(** ** Dataset store: prefixes, collisions, reloads *)

Section LoaderMore.

Import Loader.
Local Open Scope string_scope.

Lemma length_append (a b : string) :
  String.length (a ++ b) = (String.length a + String.length b)%nat.
Proof.
  induction a as [|c a IH]; simpl; [reflexivity|]. now rewrite IH.
Qed.

Lemma substring_whole (s : string) : substring 0 (String.length s) s = s.
Proof.
  induction s as [|c s IH]; simpl; [reflexivity|]. now rewrite IH.
Qed.

Lemma substring_skip_prefix (a b : string) :
  substring (String.length a) (String.length b) (a ++ b) = b.
Proof.
  induction a as [|c a IH]; simpl; [apply substring_whole | exact IH].
Qed.

Lemma substring_take_prefix (a b : string) :
  substring 0 (String.length a) (a ++ b) = a.
Proof.
  induction a as [|c a IH]; simpl.
  - destruct b; reflexivity.
  - now rewrite IH.
Qed.

Lemma endswith_append (a p : string) : Py.endswith p (a ++ p) = true.
Proof.
  unfold Py.endswith. rewrite length_append.
  replace (String.length a + String.length p - String.length p)%nat
    with (String.length a) by lia.
  rewrite substring_skip_prefix, String.eqb_refl.
  rewrite andb_true_r. apply Nat.leb_le. lia.
Qed.

Lemma drop_last_append (a p : string) : Py.drop_last (String.length p) (a ++ p) = a.
Proof.
  unfold Py.drop_last. rewrite length_append.
  replace (String.length a + String.length p - String.length p)%nat
    with (String.length a) by lia.
  apply substring_take_prefix.
Qed.

Lemma filter_filter {A} (f g : A -> bool) (l : list A) :
  filter g (filter f l) = filter (fun x => f x && g x) l.
Proof.
  induction l as [|x l IH]; simpl; [reflexivity|].
  destruct (f x); simpl; [destruct (g x)|]; now rewrite IH.
Qed.

(** The clean-up loop removes exactly the labels that end in ["_dup"],
    as long as each of them has its base among the labels that do not. *)
Lemma drop_dups_fold (snapshot : list string) : forall cur : list string,
  (forall col, In col snapshot -> Py.endswith "_dup" col = true ->
     In (Py.drop_last 4 col) cur /\ Py.endswith "_dup" (Py.drop_last 4 col) = false) ->
  fold_left
    (fun cur col =>
       if Py.endswith "_dup" col && Py.mem (Py.drop_last 4 col) cur
       then drop col cur else cur)
    snapshot cur
  = filter (fun c => negb (Py.endswith "_dup" c && Py.mem c snapshot)) cur.
Proof.
  induction snapshot as [|col snap IH]; intros cur H.
  - cbn [fold_left]. symmetry. etransitivity; [|apply filter_true].
    apply filter_ext. intros c. unfold Py.mem. simpl. now rewrite andb_false_r.
  - cbn [fold_left]. destruct (Py.endswith "_dup" col) eqn:E.
    + destruct (H col (or_introl eq_refl) E) as [Hb Hbn].
      rewrite (proj2 (mem_In _ _) Hb). cbn [andb].
      rewrite IH.
      * unfold drop. rewrite filter_filter. apply filter_ext. intros c.
        unfold Py.mem. cbn [existsb].
        destruct (String.eqb c col) eqn:Ec.
        -- apply String.eqb_eq in Ec. subst c. rewrite E. reflexivity.
        -- reflexivity.
      * intros col' Hin' E'. destruct (H col' (or_intror Hin') E') as [Hb' Hbn'].
        split; [|exact Hbn']. unfold drop. apply filter_In. split; [exact Hb'|].
        destruct (String.eqb (Py.drop_last 4 col') col) eqn:Ec; [|reflexivity].
        apply String.eqb_eq in Ec. congruence.
    + cbn [andb]. rewrite IH.
      * apply filter_ext. intros c. unfold Py.mem. cbn [existsb].
        destruct (String.eqb c col) eqn:Ec; [|reflexivity].
        apply String.eqb_eq in Ec. subst c. now rewrite E.
      * intros col' Hin' E'. exact (H col' (or_intror Hin') E').
Qed.

Lemma mem_false_not_In (s : string) (l : list string) : Py.mem s l = false <-> ~ In s l.
Proof.
  rewrite <- mem_In. destruct (Py.mem s l); split; congruence.
Qed.

(** X1. First source wins: when no label on either side ends in ["_dup"],
    merging a new table keeps every column of the dataset, in place, and
    adds only those columns of the new table whose label the dataset does
    not have yet; a colliding column of the new table is discarded. *)
Theorem merge_first_source_wins (left right : list string) :
  (forall c, In c (left ++ right)%list -> Py.endswith "_dup" c = false) ->
  drop_dups (merge_columns left right)
  = (left ++ filter (fun c => negb (Py.mem c left)) right)%list.
Proof.
  intros H. unfold drop_dups. rewrite drop_dups_fold.
  - unfold merge_columns. rewrite filter_app. f_equal.
    + etransitivity; [|apply filter_true]. apply filter_ext_in. intros c Hc.
      rewrite (H c) by (apply in_or_app; now left). reflexivity.
    + assert (Hr : forall c, In c right -> Py.endswith "_dup" c = false)
        by (intros c Hc; apply H, in_or_app; now right).
      set (suffixed := fun c : string => if Py.mem c left then c ++ "_dup" else c).
      assert (Hin : forall c, In c right ->
                In (suffixed c) (List.app left (map suffixed right)))
        by (intros c Hc; apply in_or_app; right; now apply in_map).
      revert Hr Hin. generalize (List.app left (map suffixed right)) as all.
      intros all Hr Hin. clear H. unfold suffixed in *. clear suffixed.
      induction right as [|c r IH]; [reflexivity|].
      cbn [map filter].
      rewrite (proj2 (mem_In _ all) (Hin c (or_introl eq_refl))).
      destruct (Py.mem c left) eqn:E; cbn [negb].
      * rewrite (endswith_append c "_dup"). cbn [andb negb].
        apply IH; intros; [apply Hr | apply Hin]; now right.
      * rewrite (Hr c (or_introl eq_refl)). cbn [andb negb]. f_equal.
        apply IH; intros; [apply Hr | apply Hin]; now right.
  - intros col Hin E. unfold merge_columns in Hin. apply in_app_or in Hin.
    destruct Hin as [Hin|Hin].
    + rewrite (H col) in E by (apply in_or_app; now left). discriminate.
    + apply in_map_iff in Hin. destruct Hin as [c [Hc Hcr]].
      destruct (Py.mem c left) eqn:Em.
      * subst col. change 4%nat with (String.length "_dup").
        rewrite drop_last_append. split.
        -- unfold merge_columns. apply in_or_app. left. now apply mem_In.
        -- apply H, in_or_app. now right.
      * subst col. rewrite (H c) in E by (apply in_or_app; now right). discriminate.
Qed.

Lemma merge_first_source_wins_witness :
  drop_dups (merge_columns ["a_temp"; "a_flow"] ["a_flow"; "b_level"; "a_temp"])
  = (["a_temp"; "a_flow"]
     ++ filter (fun c => negb (Py.mem c ["a_temp"; "a_flow"]))
               ["a_flow"; "b_level"; "a_temp"])%list.
Proof.
  apply (merge_first_source_wins ["a_temp"; "a_flow"] ["a_flow"; "b_level"; "a_temp"]).
  intros c Hc. simpl in Hc.
  repeat (destruct Hc as [<-|Hc]; [reflexivity|]). contradiction.
Defined.

End LoaderMore.

Section LoaderPrefix.

Import Loader.
Local Open Scope string_scope.




Lemma has_char_append (c : ascii) (a b : string) :
  ShortName.has_char c (a ++ b) = ShortName.has_char c a || ShortName.has_char c b.
Proof.
  unfold ShortName.has_char. induction a as [|x a IH]; [reflexivity|].
  cbn [append list_ascii_of_string existsb]. rewrite IH. now rewrite orb_assoc.
Qed.

Lemma has_char_cons (c x : ascii) (s : string) :
  ShortName.has_char c (String x s) = Ascii.eqb c x || ShortName.has_char c s.
Proof. reflexivity. Qed.

Lemma split_last_append (sep : ascii) (a b : string) :
  ShortName.has_char sep b = false -> Py.split_last sep (a ++ String sep b) = b.
Proof.
  intros Hb. induction a as [|x a IH]; cbn [append Py.split_last].
  - fold (ShortName.has_char sep b). rewrite Hb. now rewrite Ascii.eqb_refl.
  - fold (ShortName.has_char sep (a ++ String sep b)).
    rewrite has_char_append, has_char_cons, Ascii.eqb_refl.
    rewrite orb_true_r. exact IH.
Qed.

Lemma split_last_none (sep : ascii) (s : string) :
  ShortName.has_char sep s = false -> Py.split_last sep s = s.
Proof.
  destruct s as [|x s]; [reflexivity|]. intros H. cbn [Py.split_last].
  rewrite has_char_cons in H. apply orb_false_iff in H. destruct H as [Hx Hs].
  fold (ShortName.has_char sep s). rewrite Hs.
  rewrite Ascii.eqb_sym, Hx. reflexivity.
Qed.

Lemma split_first_append (sep : ascii) (a b : string) :
  ShortName.has_char sep a = false -> Py.split_first sep (a ++ String sep b) = a.
Proof.
  induction a as [|x a IH]; intros Ha; cbn [append Py.split_first].
  - now rewrite Ascii.eqb_refl.
  - rewrite has_char_cons in Ha. apply orb_false_iff in Ha. destruct Ha as [Hx Ha].
    rewrite Ascii.eqb_sym, Hx. now rewrite IH.
Qed.

(** X3. The prefix of a file is its base name up to the first dot,
    followed by ["_"], whatever the directory and whatever follows that
    dot: two files whose names agree up to their first dot, such as
    [run.1.csv] and [run.2.csv], get the same prefix. *)
Theorem file_prefix_base (dir base ext : string) :
  ShortName.has_char "/" base = false -> ShortName.has_char "." base = false ->
  ShortName.has_char "/" ext = false ->
  file_prefix (dir ++ String "/" (base ++ String "." ext)) = base ++ "_"
  /\ file_prefix (base ++ String "." ext) = base ++ "_".
Proof.
  intros Hb Hd He. unfold file_prefix.
  assert (Hn : ShortName.has_char "/" (base ++ String "." ext) = false).
  { rewrite has_char_append, has_char_cons, Hb, He. reflexivity. }
  rewrite split_last_append by exact Hn.
  rewrite split_last_none by exact Hn.
  now rewrite split_first_append.
Qed.

Lemma file_prefix_base_witness :
  file_prefix ("C:/logs" ++ String "/" ("run" ++ String "." "1.csv")) = "run" ++ "_"
  /\ file_prefix ("run" ++ String "." "1.csv") = "run" ++ "_".
Proof.
  apply (file_prefix_base "C:/logs" "run" "1.csv"); reflexivity.
Defined.

(** A name passed over or loaded is in the list of files afterwards. *)
Lemma load_files_names (files : list (string * RawTable)) :
  forall (file_list : list string) (merged : DataFrame) (n : string),
  In n file_list \/ In n (map fst files) ->
  In n (fst (load_files file_list merged files)).
Proof.
  unfold load_files. induction files as [|[f t] r IH]; intros fl m n H.
  - destruct H as [H|[]]. exact H.
  - cbn [fold_left fst snd map In] in *.
    destruct (Py.mem f fl) eqn:E.
    + apply IH. destruct H as [H|[<-|H]]; auto. left. now apply mem_In.
    + apply IH. destruct H as [H|[<-|H]]; auto; left; apply in_or_app; auto.
      right. now left.
Qed.

Lemma load_files_skip (files : list (string * RawTable)) (file_list : list string)
    (merged : DataFrame) :
  (forall n, In n (map fst files) -> In n file_list) ->
  load_files file_list merged files = (file_list, merged).
Proof.
  unfold load_files. induction files as [|[f t] r IH]; intros H; [reflexivity|].
  cbn [fold_left fst snd]. rewrite (proj2 (mem_In f file_list)) by (apply H; now left).
  apply IH. intros n Hn. apply H. now right.
Qed.

(** X4. A file name is loaded once: after a pass of [load_files], offering
    any of the same names again, with whatever content, changes neither
    the dataset nor the list of files. This holds also for a file that was
    empty the first time. *)
Theorem load_files_once (file_list : list string) (merged : DataFrame)
    (files again : list (string * RawTable)) :
  (forall n, In n (map fst again) -> In n (map fst files)) ->
  load_files (fst (load_files file_list merged files))
             (snd (load_files file_list merged files)) again
  = load_files file_list merged files.
Proof.
  intros H. rewrite load_files_skip.
  - now destruct (load_files file_list merged files).
  - intros n Hn. apply load_files_names. right. now apply H.
Qed.

Lemma load_files_once_witness :
  load_files (fst (load_files [] empty_frame [("logs/a.csv", sample_table)]))
             (snd (load_files [] empty_frame [("logs/a.csv", sample_table)]))
             [("logs/a.csv", mkRaw ["time"; "pressure"] [5%Z])]
  = load_files [] empty_frame [("logs/a.csv", sample_table)].
Proof.
  apply (load_files_once [] empty_frame [("logs/a.csv", sample_table)]
           [("logs/a.csv", mkRaw ["time"; "pressure"] [5%Z])]).
  intros n Hn. exact Hn.
Defined.






End LoaderPrefix.

(** ** Short names *)

Section ShortNameFacts.

Import ShortName.
Local Open Scope string_scope.

Lemma lookup_app (k n v : string) (c : Cache) :
  Loader.lookup k (c ++ [(n, v)])%list
  = match Loader.lookup k c with
    | Some x => Some x
    | None => if String.eqb k n then Some v else None
    end.
Proof.
  induction c as [|[k' v'] r IH]; cbn [List.app Loader.lookup]; [reflexivity|].
  destruct (String.eqb k k'); [reflexivity | exact IH].
Qed.

(** What [get_short_name] keeps true of its cache. *)
Lemma get_short_name_coherent (cache : Cache) (name : string) :
  (forall k v, Loader.lookup k cache = Some v -> v = short_of k) ->
  fst (get_short_name cache name) = short_of name
  /\ (forall k v, Loader.lookup k (snd (get_short_name cache name)) = Some v ->
                  v = short_of k)
  /\ Loader.lookup name (snd (get_short_name cache name)) = Some (short_of name).
Proof.
  intros H. unfold get_short_name.
  destruct (Loader.lookup name cache) as [s|] eqn:E; cbn [fst snd].
  - pose proof (H _ _ E) as ->. auto.
  - repeat split.
    + intros k v. rewrite lookup_app.
      destruct (Loader.lookup k cache) eqn:Ek.
      * intros Hv. inversion Hv; subst. now apply H.
      * destruct (String.eqb k name) eqn:Ekn; [|discriminate].
        apply String.eqb_eq in Ekn. subst. intros Hv. now inversion Hv.
    + rewrite lookup_app, E. now rewrite String.eqb_refl.
Qed.

Lemma get_short_names_coherent (names : list string) : forall cache : Cache,
  (forall k v, Loader.lookup k cache = Some v -> v = short_of k) ->
  fst (get_short_names cache names) = map short_of names
  /\ (forall k v, Loader.lookup k (snd (get_short_names cache names)) = Some v ->
                  v = short_of k).
Proof.
  induction names as [|n r IH]; intros cache H; cbn [get_short_names].
  - split; [reflexivity | exact H].
  - destruct (get_short_name_coherent cache n H) as [H1 [H2 _]].
    destruct (get_short_name cache n) as [s c1]. cbn [fst snd] in *.
    destruct (IH c1 H2) as [H3 H4].
    destruct (get_short_names c1 r) as [ss c2]. cbn [fst snd] in *.
    split; [now rewrite H1, H3 | exact H4].
Qed.

(** X6. The cache is never stale: starting from the empty cache, any
    sequence of calls of [get_short_name], with names repeated or not,
    returns for every name the short name computed from that name alone,
    and every entry left in the cache is the short name of its key. *)
Theorem short_name_cache_coherent (first second : list string) :
  let run1 := get_short_names [] first in
  let run2 := get_short_names (snd run1) second in
  fst run1 = map short_of first
  /\ fst run2 = map short_of second
  /\ forall k v, Loader.lookup k (snd run2) = Some v -> v = short_of k.
Proof.
  intros run1 run2.
  destruct (get_short_names_coherent first []) as [H1 H2]; [discriminate|].
  destruct (get_short_names_coherent second (snd run1) H2) as [H3 H4].
  auto.
Qed.

Lemma substring_length_le (n : nat) : forall s : string,
  (String.length (substring 0 n s) <= n)%nat.
Proof.
  induction n as [|n IH]; intros [|c s]; simpl; try lia.
  specialize (IH s). lia.
Qed.








Example short_name_examples :
  short_of "Flow rate (m3/h) inlet" = "Flow rate"
  /\ short_of "  ( level , tank 2 ) (m)" = "level , tank 2"
  /\ short_of "a_temp" = "a_temp"
  /\ short_of "reactor_outlet_temperature" = "reactor_outlet_...".
Proof. repeat split. Qed.

End ShortNameFacts.

(** ** Time index hygiene *)

Section TimeIndexFacts.

Import TimeIndex.
Local Open Scope Z_scope.

Lemma clip_mono (t u : Z) : t <= u -> clip t <= clip u.
Proof. unfold clip. lia. Qed.

(** X9. [_normalize_time_index] pins every timestamp into the range from
    1970-01-01 to 2100-01-01, leaves exactly the timestamps of that range
    unchanged, never changes the order of a sorted index nor its length,
    and applying it a second time (as [load_files] does) changes nothing. *)
Theorem normalize_time_index_clips (idx : list Z) :
  StronglySorted Z.le idx ->
  StronglySorted Z.le (_normalize_time_index idx)
  /\ Forall (fun t => lower <= t <= upper) (_normalize_time_index idx)
  /\ _normalize_time_index (_normalize_time_index idx) = _normalize_time_index idx
  /\ List.length (_normalize_time_index idx) = List.length idx
  /\ forall t, clip t = t <-> lower <= t <= upper.
Proof.
  intros Hs. unfold _normalize_time_index. repeat split.
  - induction Hs as [|t l Hs IH Hall]; simpl; constructor; [exact IH|].
    apply Forall_forall. intros x Hx. apply in_map_iff in Hx.
    destruct Hx as [u [<- Hu]]. apply clip_mono.
    exact (proj1 (Forall_forall _ _) Hall u Hu).
  - apply Forall_forall. intros x Hx. apply in_map_iff in Hx.
    destruct Hx as [u [<- _]]. unfold clip, lower, upper. lia.
  - rewrite map_map. apply map_ext. intros t. unfold clip, lower, upper. lia.
  - apply length_map.
  - unfold clip, lower, upper in *. lia.
  - unfold clip, lower, upper in *. lia.
  - unfold clip, lower, upper in *. lia.
Qed.

Lemma normalize_time_index_clips_witness :
  StronglySorted Z.le (_normalize_time_index [-5; 1700000000000000000; 5000000000000000000])
  /\ Forall (fun t => lower <= t <= upper)
            (_normalize_time_index [-5; 1700000000000000000; 5000000000000000000])
  /\ _normalize_time_index
       (_normalize_time_index [-5; 1700000000000000000; 5000000000000000000])
     = _normalize_time_index [-5; 1700000000000000000; 5000000000000000000]
  /\ List.length (_normalize_time_index [-5; 1700000000000000000; 5000000000000000000])
     = List.length [-5; 1700000000000000000; 5000000000000000000]
  /\ forall t, clip t = t <-> lower <= t <= upper.
Proof.
  apply (normalize_time_index_clips [-5; 1700000000000000000; 5000000000000000000]).
  repeat constructor; lia.
Defined.

End TimeIndexFacts.

(** ** Numeric reductions: order facts *)

Section NumericFacts.

Local Open Scope Q_scope.

Lemma np_insert_In (v x : Q) (l : list Q) : In x (Np.insert v l) <-> x = v \/ In x l.
Proof.
  induction l as [|y r IH]; simpl; [intuition|].
  destruct (Qle_bool v y); simpl; rewrite ?IH; intuition.
Qed.

Lemma np_sort_In (x : Q) (l : list Q) : In x (Np.sort l) <-> In x l.
Proof.
  unfold Np.sort. induction l as [|v r IH]; simpl; [tauto|].
  rewrite np_insert_In, IH. intuition.
Qed.

Lemma np_insert_length (v : Q) (l : list Q) :
  List.length (Np.insert v l) = S (List.length l).
Proof.
  induction l as [|y r IH]; simpl; [reflexivity|].
  destruct (Qle_bool v y); simpl; now rewrite ?IH.
Qed.

Lemma np_sort_length (l : list Q) : List.length (Np.sort l) = List.length l.
Proof.
  unfold Np.sort. induction l as [|v r IH]; simpl; [reflexivity|].
  now rewrite np_insert_length, IH.
Qed.

Lemma np_insert_sorted (v : Q) (l : list Q) :
  StronglySorted Qle l -> StronglySorted Qle (Np.insert v l).
Proof.
  intros H. induction H as [|y r Hs IH Hall]; simpl.
  - repeat constructor.
  - destruct (Qle_bool v y) eqn:E.
    + apply Qle_bool_iff in E. constructor; [now constructor|].
      constructor; [exact E|]. eapply Forall_impl; [|exact Hall].
      intros a Ha. eapply Qle_trans; eauto.
    + constructor; [exact IH|]. apply Forall_forall. intros a Ha.
      apply np_insert_In in Ha. destruct Ha as [->|Ha].
      * apply Qlt_le_weak, Qnot_le_lt. intros C. apply Qle_bool_iff in C. congruence.
      * exact (proj1 (Forall_forall _ _) Hall a Ha).
Qed.

Lemma np_sort_sorted (l : list Q) : StronglySorted Qle (Np.sort l).
Proof.
  unfold Np.sort. induction l as [|v r IH]; simpl; [constructor|].
  now apply np_insert_sorted.
Qed.

(** In a sorted list a later position holds a value at least as large. *)
Lemma sorted_nth_le (s : list Q) : StronglySorted Qle s ->
  forall i j, (i <= j)%nat -> (j < List.length s)%nat -> nth i s 0 <= nth j s 0.
Proof.
  intros H. induction H as [|x r Hs IH Hall]; intros i j Hij Hj; simpl in Hj; [lia|].
  destruct j as [|j]; [replace i with O by lia; apply Qle_refl|].
  destruct i as [|i]; simpl.
  - apply (proj1 (Forall_forall _ _) Hall). apply nth_In. lia.
  - apply IH; lia.
Qed.








End NumericFacts.

(** ** Resampling: values and order *)

Section ResampleMore.

Import Resample.
Local Open Scope Q_scope.





End ResampleMore.

Section ResampleOrder.

Import Resample.
Local Open Scope Z_scope.


Lemma sorted_lt_map_seq (h : nat -> Z) (n : nat) : forall a : nat,
  (forall i j, (i < j)%nat -> h i < h j) ->
  StronglySorted Z.lt (map h (seq a n)).
Proof.
  induction n as [|n IH]; intros a Hh; cbn [seq map]; constructor.
  - now apply IH.
  - apply Forall_forall. intros x Hx. apply in_map_iff in Hx.
    destruct Hx as [k [<- Hk]]. apply in_seq in Hk. apply Hh. lia.
Qed.

Lemma labels_sorted (p lo hi : Z) : 0 < p -> StronglySorted Z.lt (labels p lo hi).
Proof.
  intros Hp. unfold labels. apply sorted_lt_map_seq. intros i j Hij. nia.
Qed.

Lemma sorted_filter {A} (R : A -> A -> Prop) (f : A -> bool) (l : list A) :
  StronglySorted R l -> StronglySorted R (filter f l).
Proof.
  intros H. induction H as [|x l Hs IH Hall]; simpl; [constructor|].
  destruct (f x); [|exact IH]. constructor; [exact IH|].
  apply Forall_forall. intros y Hy. apply filter_In in Hy.
  exact (proj1 (Forall_forall _ _) Hall y (proj1 Hy)).
Qed.

Lemma sorted_lt_NoDup (l : list Z) : StronglySorted Z.lt l -> NoDup l.
Proof.
  intros H. induction H as [|x l Hs IH Hall]; constructor; [|exact IH].
  intros Hin. pose proof (proj1 (Forall_forall _ _) Hall x Hin). lia.
Qed.

Lemma map_fst_filter_map {B} (f : Z * B -> bool) (g : Z -> B) (l : list Z) :
  map fst (filter f (map (fun b => (b, g b)) l)) = filter (fun b => f (b, g b)) l.
Proof.
  induction l as [|b l IH]; simpl; [reflexivity|].
  destruct (f (b, g b)); simpl; now rewrite IH.
Qed.

Lemma index_min_attained (a : list Row) : forall r : Row,
  exists x, In x (r :: a) /\ fst x = index_min (r :: a).
Proof.
  cbn [index_min]. induction a as [|y a IH]; intros r.
  - exists r. split; [now left | reflexivity].
  - cbn [map fold_left].
    destruct (Z.min_spec (fst r) (fst y)) as [[_ E]|[_ E]].
    + destruct (IH r) as [x [Hx Ex]]. exists x. split.
      * destruct Hx as [<-|Hx]; [now left | right; now right].
      * rewrite Ex. now rewrite E.
    + destruct (IH y) as [x [Hx Ex]]. exists x. split.
      * now right.
      * rewrite Ex. now rewrite E.
Qed.

Lemma index_max_attained (a : list Row) : forall r : Row,
  exists x, In x (r :: a) /\ fst x = index_max (r :: a).
Proof.
  cbn [index_max]. induction a as [|y a IH]; intros r.
  - exists r. split; [now left | reflexivity].
  - cbn [map fold_left].
    destruct (Z.max_spec (fst r) (fst y)) as [[_ E]|[_ E]].
    + destruct (IH y) as [x [Hx Ex]]. exists x. split.
      * now right.
      * rewrite Ex. now rewrite E.
    + destruct (IH r) as [x [Hx Ex]]. exists x. split.
      * destruct Hx as [<-|Hx]; [now left | right; now right].
      * rewrite Ex. now rewrite E.
Qed.

Lemma index_bounds_incl (a b : list Row) :
  (forall x, In x a -> In x b) -> a <> [] ->
  index_min b <= index_min a /\ index_max a <= index_max b.
Proof.
  intros Hab Ha. destruct a as [|r a]; [congruence|].
  destruct (index_min_attained a r) as [x [Hx Ex]].
  destruct (index_max_attained a r) as [y [Hy Ey]].
  pose proof (index_min_le b x (Hab _ Hx)).
  pose proof (index_max_ge b y (Hab _ Hy)). lia.
Qed.

(** Sorting the rows changes neither the first nor the last timestamp. *)
Lemma index_bounds_sort_rows (rs : list Row) :
  index_min (sort_rows rs) = index_min rs /\ index_max (sort_rows rs) = index_max rs.
Proof.
  destruct rs as [|r0 tl]; [split; reflexivity|].
  assert (Hne : sort_rows (r0 :: tl) <> []).
  { intros C. assert (H : In r0 (sort_rows (r0 :: tl))) by (apply sort_rows_In; now left).
    rewrite C in H. exact H. }
  destruct (index_bounds_incl (sort_rows (r0 :: tl)) (r0 :: tl)) as [A1 A2];
    [intros x; apply sort_rows_In | exact Hne |].
  destruct (index_bounds_incl (r0 :: tl) (sort_rows (r0 :: tl))) as [B1 B2];
    [intros x; apply sort_rows_In | discriminate |].
  lia.
Qed.

(** X11. After resampling, the timestamps of the result increase strictly
    (one row per bucket at most), and the result has no more rows than
    the time-filtered input and no more than there are buckets between
    the first and the last input timestamp. *)
Theorem resampled_rows_ordered (start_time end_time : Z) (freq : Freq) (agg : Agg)
    (df : Frame) (p : Z) :
  empty df = false -> period_ns freq = Some p ->
  let input := rows (time_filter start_time end_time df) in
  let out := rows (_apply_time_filter_and_sampling start_time end_time freq agg df) in
  StronglySorted Z.lt (map fst out)
  /\ (List.length out <= List.length input)%nat
  /\ (List.length out
      <= S (Z.to_nat ((bucket p (index_max input) - bucket p (index_min input)) / p)))%nat.
Proof.
  intros He Hf input out. pose proof (period_positive _ _ Hf) as Hp.
  assert (Hout : out = rows (_apply_time_filter_and_sampling start_time end_time freq agg df))
    by reflexivity.
  unfold _apply_time_filter_and_sampling in Hout. rewrite He in Hout.
  destruct (empty (time_filter start_time end_time df)) eqn:E.
  - assert (Hnil : input = []).
    { unfold input. unfold empty in E.
      destruct (rows (time_filter start_time end_time df)) eqn:R; [reflexivity|].
      exfalso. cbn [time_filter columns] in E. unfold empty in He.
      destruct (rows df); [discriminate|]. destruct (columns df); discriminate. }
    fold input in Hout. rewrite Hout, Hnil. cbn. repeat split; try lia. constructor.
  - rewrite Hf in Hout.
    assert (Hmap : map fst out
                   = filter (fun b => existsb is_some
                               (map (fun j => aggregate agg (cells p b j (sort_rows input)))
                                    (seq 0 (List.length (columns df)))))
                            (labels p (index_min (sort_rows input))
                                      (index_max (sort_rows input)))).
    { rewrite Hout. unfold dropna_all, resample. cbn [rows columns time_filter].
      apply (map_fst_filter_map (fun r : Row => existsb is_some (snd r))). }
    assert (Hsorted : StronglySorted Z.lt (map fst out)).
    { rewrite Hmap. apply sorted_filter. now apply labels_sorted. }
    split; [exact Hsorted|]. split.
    + assert (Hlo : List.length out = List.length (map fst out))
        by (symmetry; apply length_map).
      assert (Hli : List.length input
                    = List.length (map (fun r : Row => bucket p (fst r)) input))
        by (symmetry; apply length_map).
      rewrite Hlo, Hli.
      apply NoDup_incl_length; [now apply sorted_lt_NoDup|].
      intros t Ht. apply in_map_iff in Ht. destruct Ht as [[t' cs] [Ht Hin]].
      cbn [fst] in Ht. subst t'.
      assert (Hin' : In (t, cs) (rows (dropna_all
                 (resample p agg (time_filter start_time end_time df)))))
        by (rewrite <- Hout; exact Hin).
      destruct (resample_row_origin _ _ _ _ _ Hp Hin') as [_ [r [Hr Hb]]].
      apply in_map_iff. exists r. split; [now symmetry | exact Hr].
    + assert (Hlo : List.length out = List.length (map fst out))
        by (symmetry; apply length_map).
      rewrite Hlo, Hmap.
      eapply Nat.le_trans; [apply filter_length_le|].
      unfold labels. rewrite length_map, length_seq.
      destruct (index_bounds_sort_rows input) as [Hmin Hmax].
      rewrite Hmin, Hmax. lia.
Qed.

Lemma resampled_rows_ordered_witness :
  StronglySorted Z.lt
    (map fst (rows (_apply_time_filter_and_sampling 0 10000000000 S1 Max plant_log)))
  /\ (List.length (rows (_apply_time_filter_and_sampling 0 10000000000 S1 Max plant_log))
      <= List.length (rows (time_filter 0 10000000000 plant_log)))%nat
  /\ (List.length (rows (_apply_time_filter_and_sampling 0 10000000000 S1 Max plant_log))
      <= S (Z.to_nat ((bucket 1000000000 (index_max (rows (time_filter 0 10000000000 plant_log)))
                       - bucket 1000000000 (index_min (rows (time_filter 0 10000000000 plant_log))))
                      / 1000000000)))%nat.
Proof.
  apply (resampled_rows_ordered 0 10000000000 S1 Max plant_log 1000000000); reflexivity.
Defined.

End ResampleOrder.

(** ** Export *)

Section ExporterFacts.

Import Resample Exporter.
Local Open Scope Z_scope.








Example build_current_dataframe_example :
  _build_current_dataframe 0 10000000000 S1 Max
    ["a_flow"; "b_level"; "a_temp"]%string plant_log
  = mkFrame ["a_flow"; "a_temp"]%string
      [(0, [None; Some 3%Q]); (2000000000, [Some 5%Q; None])].
Proof. reflexivity. Qed.

End ExporterFacts.

(** ** Step detector: order and size of the windows *)

Section DetectorMore.

Import StepDetector Identifier.

(** The peaks of a scan come in increasing order, none before the start
    of the plateau under way, or before the position reached when there
    is none. *)
Lemma scan_sorted (l : list Q) : forall (i : nat) (prev : Q) (start : option nat),
  (forall s, start = Some s -> s < i)%nat ->
  StronglySorted lt (scan i prev start l)
  /\ forall p, In p (scan i prev start l) ->
       (match start with Some s => s | None => i end <= p)%nat.
Proof.
  induction l as [|c r IH]; intros i prev start Hs; cbn [scan].
  - split; [constructor | contradiction].
  - destruct (Py.Qlt_bool prev c).
    + destruct (IH (S i) c (Some i)) as [H1 H2]; [intros s E; inversion E; lia|].
      split; [exact H1|]. intros p Hp. specialize (H2 p Hp). cbn in H2.
      destruct start as [s|]; [specialize (Hs s eq_refl)|]; lia.
    + destruct (Py.Qlt_bool c prev).
      * destruct (IH (S i) c None) as [H1 H2]; [discriminate|].
        destruct start as [s|].
        -- specialize (Hs s eq_refl).
           assert (Hmid : (s <= (s + (i - 1)) / 2 /\ (s + (i - 1)) / 2 < S i)%nat).
           { split.
             - apply Nat.div_le_lower_bound; lia.
             - apply Nat.Div0.div_lt_upper_bound. lia. }
           split.
           ++ constructor; [exact H1|]. apply Forall_forall. intros p Hp.
              specialize (H2 p Hp). cbn in H2. lia.
           ++ intros p [<-|Hp]; [lia|]. specialize (H2 p Hp). cbn in H2. lia.
        -- split; [exact H1|]. intros p Hp. specialize (H2 p Hp). cbn in H2. lia.
      * destruct (IH (S i) c start) as [H1 H2];
          [intros s E; specialize (Hs s E); lia|].
        split; [exact H1|]. intros p Hp. specialize (H2 p Hp).
        destruct start; lia.
Qed.

Lemma local_maxima_sorted (x : list Q) :
  StronglySorted lt (local_maxima x)
  /\ forall p, In p (local_maxima x) -> (1 <= p)%nat.
Proof.
  destruct x as [|x0 r]; cbn [local_maxima].
  - split; [constructor | contradiction].
  - apply (scan_sorted r 1 x0 None). discriminate.
Qed.

Lemma sorted_select {A} (R : A -> A -> Prop) (l : list A) : forall keep : list bool,
  StronglySorted R l -> StronglySorted R (select l keep).
Proof.
  unfold select. induction l as [|a l IH]; intros keep H; [constructor|].
  inversion H; subst. destruct keep as [|k keep]; [constructor|].
  cbn [combine filter]. destruct k; cbn [snd map fst].
  - constructor; [now apply IH|]. apply Forall_forall. intros b Hb.
    apply select_In in Hb. match goal with HF : Forall _ l |- _ =>
      exact (proj1 (Forall_forall _ _) HF b Hb) end.
  - now apply IH.
Qed.

(** The peaks that [find_peaks] returns are local maxima, listed in
    increasing order, and each of them has the prominence asked for. *)
Lemma find_peaks_sorted (x : list Q) (prominence : Q) (distance : nat) :
  StronglySorted lt (find_peaks x prominence distance)
  /\ forall p, In p (find_peaks x prominence distance) ->
       (1 <= p)%nat /\ (p < List.length x)%nat
       /\ (prominence <= prominence_of x p)%Q.
Proof.
  destruct (local_maxima_sorted x) as [Hs Hlow]. split.
  - unfold find_peaks. apply sorted_filter. now apply sorted_select.
  - intros p Hp. split; [|split].
    + unfold find_peaks in Hp. apply filter_In in Hp. destruct Hp as [Hp _].
      apply select_In in Hp. now apply Hlow.
    + now apply find_peaks_bound in Hp.
    + unfold find_peaks in Hp. apply filter_In in Hp. destruct Hp as [_ Hp].
      now apply Qle_bool_iff.
Qed.

Lemma smoothed_length (vals : list Q) :
  List.length (map Qabs (rolling_median3 (Np.diff vals))) = (List.length vals - 1)%nat.
Proof.
  unfold rolling_median3. now rewrite !length_map, length_seq, diff_length.
Qed.

Lemma slice_length {A} (l : list A) (lo hi : Z) :
  (0 <= lo)%Z -> (lo <= hi)%Z -> (hi <= Z.of_nat (List.length l))%Z ->
  List.length (Py.slice l lo hi) = Z.to_nat (hi - lo).
Proof.
  intros H0 H1 H2. unfold Py.slice. rewrite length_firstn, length_skipn. lia.
Qed.

(** X13. On a series of at least 30 samples every window of the detector
    lies around a peak that is neither the first nor the last difference
    and spans between 10 and 17 samples; the rejection of a window of
    fewer than 6 samples therefore never applies, and the window accepted
    for fitting is the first one detected. *)
Theorem detected_window_size (vals : list Q) (prominence : option Q) (distance : nat)
    (s e : Z) :
  (30 <= List.length vals)%nat ->
  In (s, e) (_detect_steps vals prominence distance) ->
  (10 <= List.length (y_segment vals s e) <= 17)%nat
  /\ List.length (y_segment vals s e) = Z.to_nat (e - s + 1)
  /\ accepted_window vals = hd_error (_detect_steps vals None 5).
Proof.
  intros Hlen Hin.
  assert (Hsize : forall s e, In (s, e) (_detect_steps vals prominence distance)
                     \/ In (s, e) (_detect_steps vals None 5) ->
            (10 <= List.length (y_segment vals s e) <= 17)%nat
            /\ List.length (y_segment vals s e) = Z.to_nat (e - s + 1)).
  { clear s e Hin. intros s e H.
    assert (Hp : exists p, (1 <= p)%nat /\ (p < List.length vals - 1)%nat
                   /\ s = Z.max 0 (Z.of_nat p - 8)
                   /\ e = Z.min (Z.of_nat (List.length vals) - 1) (Z.of_nat p + 8)).
    { destruct H as [H|H]; unfold _detect_steps in H;
        destruct (List.length vals <? 10)%nat; try contradiction;
        apply in_map_iff in H; destruct H as [p [Hp H]];
        apply find_peaks_sorted in H; destruct H as [H1 [H2 _]];
        rewrite smoothed_length in H2; exists p; inversion Hp; auto. }
    destruct Hp as [p [Hp1 [Hp2 [-> ->]]]].
    unfold y_segment. rewrite slice_length by lia. lia. }
  destruct (Hsize s e (or_introl Hin)) as [H1 H2].
  split; [exact H1|]. split; [exact H2|].
  unfold accepted_window. apply Nat.ltb_ge in Hlen. rewrite Hlen.
  destruct (_detect_steps vals None 5) as [|[s0 e0] tl] eqn:E; [reflexivity|].
  destruct (Hsize s0 e0) as [[H3 _] _]; [right; now left|].
  replace (List.length (y_segment vals s0 e0) <? 6)%nat with false; [reflexivity|].
  symmetry. apply Nat.ltb_ge. lia.
Qed.

Lemma detected_window_size_witness :
  (10 <= List.length (y_segment bumpy 12 28) <= 17)%nat
  /\ List.length (y_segment bumpy 12 28) = Z.to_nat (28 - 12 + 1)
  /\ accepted_window bumpy = hd_error (_detect_steps bumpy None 5).
Proof.
  apply (detected_window_size bumpy None 5 12 28).
  - vm_compute. lia.
  - vm_compute. left. reflexivity.
Defined.

(** X14. The detector lists its windows by increasing peak: along the
    list the start and the end of the windows never decrease, so the
    window used for fitting, the first of the list, is the earliest
    step. *)
Theorem detect_steps_ordered (vals : list Q) (prominence : option Q) (distance : nat) :
  StronglySorted (fun w1 w2 : Z * Z => (fst w1 <= fst w2 /\ snd w1 <= snd w2)%Z)
    (_detect_steps vals prominence distance).
Proof.
  unfold _detect_steps. destruct (List.length vals <? 10)%nat; [constructor|].
  match goal with |- context [find_peaks ?x ?pr ?d] =>
    destruct (find_peaks_sorted x pr d) as [Hs _]; revert Hs;
    generalize (find_peaks x pr d) end.
  intros peaks Hs. induction Hs as [|p l Hs IH Hall]; cbn [map]; constructor;
    [exact IH|].
  apply Forall_forall. intros w Hw. apply in_map_iff in Hw.
  destruct Hw as [q [<- Hq]]. pose proof (proj1 (Forall_forall _ _) Hall q Hq).
  cbn [fst snd]. lia.
Qed.

End DetectorMore.

(** ** The initial guess of the fit *)

Section GuessFacts.

Import Identifier Guess.
Local Open Scope Q_scope.

(** X15. The fit starts from a regular point: the initial time constant
    [max(1, duration / 3)] is at least one second whatever the window, so
    at the initial parameter vector the model divides by [tau + 1e-9 > 0]
    and has a value at every instant. *)
Theorem initial_guess_regular (np_exp : Q -> Q) (index : list Z) (vals : list Q)
    (start_idx end_idx : Z) (t : Q) :
  let tau := tau_guess (t_segment index start_idx end_idx) in
  let K := K_guess vals start_idx end_idx in
  let y0 := y0_guess vals start_idx in
  1 <= tau
  /\ 0 < tau + tau_eps
  /\ first_order np_exp t K tau y0 = Some (K * (1 - np_exp (- t / (tau + tau_eps))) + y0).
Proof.
  intros tau K y0.
  assert (H1 : 1 <= tau).
  { unfold tau, tau_guess, Py.qmax.
    destruct (Qle_bool _ 1) eqn:E; [apply Qle_refl|].
    apply Qlt_le_weak, Qnot_le_lt. intros C. apply Qle_bool_iff in C. congruence. }
  assert (H2 : 0 < tau + tau_eps) by (unfold tau_eps; lra).
  split; [exact H1|]. split; [exact H2|].
  pose proof (first_order_none_iff np_exp t K tau y0) as Hiff.
  unfold first_order, divide in *.
  destruct (Qeq_bool (tau + tau_eps) 0) eqn:E; [|reflexivity].
  apply Qeq_bool_iff in E. rewrite E in H2. discriminate.
Qed.

End GuessFacts.

(** ** Fuzzy rule miner: the report and the labels *)

Section FuzzyMore.

Import Fuzzy.

Lemma insert_rule_In (v x : Key * nat) (l : list (Key * nat)) :
  In x (insert_rule v l) <-> x = v \/ In x l.
Proof.
  induction l as [|u r IH]; simpl; [intuition|].
  destruct (snd u <=? snd v)%nat; simpl; rewrite ?IH; intuition.
Qed.

Lemma sorted_rules_In (x : Key * nat) (d : list (Key * nat)) :
  In x (sorted_rules d) <-> In x d.
Proof.
  unfold sorted_rules. induction d as [|v r IH]; simpl; [tauto|].
  rewrite insert_rule_In, IH. intuition.
Qed.

Lemma insert_rule_sorted (v : Key * nat) (l : list (Key * nat)) :
  StronglySorted ge_support l -> StronglySorted ge_support (insert_rule v l).
Proof.
  intros H. induction H as [|u r Hs IH Hall]; simpl.
  - repeat constructor.
  - destruct (snd u <=? snd v)%nat eqn:E.
    + apply Nat.leb_le in E. constructor; [now constructor|].
      constructor; [exact E|]. eapply Forall_impl; [|exact Hall].
      intros a Ha. unfold ge_support in *. lia.
    + apply Nat.leb_gt in E. constructor; [exact IH|].
      apply Forall_forall. intros a Ha. apply insert_rule_In in Ha.
      destruct Ha as [->|Ha]; [unfold ge_support; lia|].
      exact (proj1 (Forall_forall _ _) Hall a Ha).
Qed.

Lemma sorted_rules_sorted (d : list (Key * nat)) :
  StronglySorted ge_support (sorted_rules d).
Proof.
  unfold sorted_rules. induction d as [|v r IH]; simpl; [constructor|].
  now apply insert_rule_sorted.
Qed.

Lemma sorted_app_cross {A} (R : A -> A -> Prop) (l1 l2 : list A) :
  StronglySorted R (l1 ++ l2) ->
  StronglySorted R l1 /\ forall a b, In a l1 -> In b l2 -> R a b.
Proof.
  induction l1 as [|x l1 IH]; simpl; intros H.
  - split; [constructor | contradiction].
  - inversion H; subst. destruct (IH H2) as [IH1 IH2]. split.
    + constructor; [exact IH1|]. apply Forall_forall. intros a Ha.
      apply (proj1 (Forall_forall _ _) H3). apply in_or_app. now left.
    + intros a b [<-|Ha] Hb.
      * apply (proj1 (Forall_forall _ _) H3). apply in_or_app. now right.
      * now apply IH2.
Qed.

(** X16. The report of the miner lists at most [top_k] rules, all of them
    mined, by decreasing support; and it is a top list: a mined rule that
    is left out has no more support than any rule shown. *)
Theorem shown_rules_top (top_k : nat) (selected : list string) (df_clean : Table) :
  (2 <= List.length selected)%nat -> df_clean <> [] ->
  exists shown,
    generate_fuzzy_rules top_k false selected df_clean = Rules shown
    /\ (List.length shown <= top_k)%nat
    /\ StronglySorted ge_support shown
    /\ (forall r, In r shown -> In r (rules_count df_clean (List.length selected)))
    /\ (forall r r', In r (rules_count df_clean (List.length selected)) ->
          ~ In r shown -> In r' shown -> (snd r <= snd r')%nat).
Proof.
  intros Hsel Hne. unfold generate_fuzzy_rules.
  apply Nat.ltb_ge in Hsel. rewrite Hsel.
  destruct df_clean as [|row rest]; [congruence|].
  set (d := rules_count (row :: rest) (List.length selected)).
  exists (firstn top_k (sorted_rules d)). split; [reflexivity|].
  pose proof (sorted_rules_sorted d) as Hs.
  rewrite <- (firstn_skipn top_k (sorted_rules d)) in Hs.
  destruct (sorted_app_cross _ _ _ Hs) as [Hs1 Hcross].
  split; [apply firstn_le_length|]. split; [exact Hs1|]. split.
  - intros r Hr. apply sorted_rules_In.
    rewrite <- (firstn_skipn top_k (sorted_rules d)). apply in_or_app. now left.
  - intros r r' Hr Hnot Hr'. apply sorted_rules_In in Hr.
    rewrite <- (firstn_skipn top_k (sorted_rules d)) in Hr.
    apply in_app_or in Hr. destruct Hr as [Hr|Hr]; [contradiction|].
    exact (Hcross r' r Hr' Hr).
Qed.

Lemma shown_rules_top_witness :
  exists shown,
    generate_fuzzy_rules 3 false ["x"; "y"]%string fuzzy_sample = Rules shown
    /\ (List.length shown <= 3)%nat
    /\ StronglySorted ge_support shown
    /\ (forall r, In r shown ->
          In r (rules_count fuzzy_sample (List.length ["x"; "y"]%string)))
    /\ (forall r r', In r (rules_count fuzzy_sample (List.length ["x"; "y"]%string)) ->
          ~ In r shown -> In r' shown -> (snd r <= snd r')%nat).
Proof.
  apply (shown_rules_top 3 ["x"; "y"]%string fuzzy_sample).
  - simpl. lia.
  - discriminate.
Defined.

Lemma bump_keys (key : Key) (d : list (Key * nat)) :
  map fst (bump key d)
  = if existsb (key_eqb key) (map fst d) then map fst d else (map fst d ++ [key])%list.
Proof.
  induction d as [|[k c] r IH]; cbn [bump map fst existsb]; [reflexivity|].
  destruct (key_eqb key k) eqn:E; cbn [orb map fst]; [reflexivity|].
  rewrite IH. now destruct (existsb (key_eqb key) (map fst r)).
Qed.

Lemma bump_In (key : Key) (d : list (Key * nat)) (kc : Key * nat) :
  In kc (bump key d) ->
  (fst kc = key /\ (1 <= snd kc)%nat) \/ In kc d.
Proof.
  induction d as [|[k c] r IH]; cbn [bump].
  - intros [<-|[]]. left. split; [reflexivity | cbn; lia].
  - destruct (key_eqb key k) eqn:E.
    + apply key_eqb_eq in E. subst k. intros [<-|H]; [left; cbn; split; [reflexivity|lia]|].
      right. now right.
    + intros [<-|H]; [right; now left|].
      destruct (IH H) as [H'|H']; [now left | right; now right].
Qed.

Lemma bump_length (key : Key) (d : list (Key * nat)) :
  (List.length (bump key d) <= S (List.length d))%nat.
Proof.
  induction d as [|[k c] r IH]; cbn [bump List.length]; [lia|].
  destruct (key_eqb key k); cbn [List.length]; lia.
Qed.

(** What the counting loop keeps true of the dict. *)
Lemma rules_loop_invariant (f : list Q -> Key) (P : Key -> Prop) (rows : list (list Q)) :
  (forall row, In row rows -> P (f row)) ->
  forall d,
    NoDup (map fst d) ->
    Forall (fun kc : Key * nat => P (fst kc) /\ (1 <= snd kc)%nat) d ->
    let d' := fold_left (fun d row => bump (f row) d) rows d in
    NoDup (map fst d')
    /\ Forall (fun kc : Key * nat => P (fst kc) /\ (1 <= snd kc)%nat) d'
    /\ (List.length d' <= List.length d + List.length rows)%nat.
Proof.
  induction rows as [|row r IH]; intros HP d Hnd Hall; cbn [fold_left].
  - repeat split; [exact Hnd | exact Hall | cbn; lia].
  - destruct (IH (fun x Hx => HP x (or_intror Hx)) (bump (f row) d)) as [H1 [H2 H3]].
    + rewrite bump_keys. destruct (existsb (key_eqb (f row)) (map fst d)) eqn:E;
        [exact Hnd|].
      apply NoDup_app; [exact Hnd | repeat constructor; intros [] | ].
      intros k Hk [<-|[]]. 
      assert (existsb (key_eqb (f row)) (map fst d) = true); [|congruence].
      apply existsb_exists. exists (f row). split; [exact Hk|].
      now apply key_eqb_eq.
    + apply Forall_forall. intros kc Hkc. apply bump_In in Hkc.
      destruct Hkc as [[Hk Hc]|Hkc].
      * split; [rewrite Hk; apply HP; now left | exact Hc].
      * exact (proj1 (Forall_forall _ _) Hall kc Hkc).
    + repeat split; [exact H1 | exact H2|].
      pose proof (bump_length (f row) d). cbn [List.length]. lia.
Qed.

(** X17. The mined rules are well formed: no two of them have the same
    antecedent and consequent, each has a support of at least one and an
    antecedent of one label per input, and there are no more rules than
    cleaned rows. *)
Theorem mined_rules_wellformed (df_clean : Table) (nsel : nat) :
  NoDup (map fst (rules_count df_clean nsel))
  /\ Forall (fun kc : Key * nat =>
               List.length (fst (fst kc)) = (nsel - 1)%nat /\ (1 <= snd kc)%nat)
            (rules_count df_clean nsel)
  /\ (List.length (rules_count df_clean nsel) <= List.length df_clean)%nat.
Proof.
  unfold rules_count.
  destruct (rules_loop_invariant (row_key df_clean nsel)
              (fun k => List.length (fst k) = (nsel - 1)%nat) df_clean) with (d := @nil (Key * nat))
    as [H1 [H2 H3]].
  - intros row _. unfold row_key. cbn [fst]. now rewrite length_map, length_seq.
  - constructor.
  - constructor.
  - repeat split; [exact H1 | exact H2 | exact H3].
Qed.

(** X18. Labels follow values: of two values of one series the larger
    never gets the lower label. The boundaries are closed on the outside:
    a value equal to the low threshold is low, and a value equal to the
    high threshold is high unless the two thresholds coincide, in which
    case it is low. *)
Theorem fuzzify_monotone (df : Table) (col : nat) (v w : Q) :
  (v <= w)%Q ->
  (label_rank (fuzzify_val df col v) <= label_rank (fuzzify_val df col w))%nat
  /\ fuzzify_val df col (q_lo df col) = Low
  /\ fuzzify_val df col (q_hi df col)
     = if Qle_bool (q_hi df col) (q_lo df col) then Low else High.
Proof.
  intros Hvw. unfold fuzzify_val. split; [|split].
  - destruct (Qle_bool w (q_lo df col)) eqn:E1.
    + apply Qle_bool_iff in E1.
      replace (Qle_bool v (q_lo df col)) with true; [cbn; lia|].
      symmetry. apply Qle_bool_iff. eapply Qle_trans; eauto.
    + destruct (Qle_bool v (q_lo df col)); [cbn; lia|].
      destruct (Qle_bool (q_hi df col) w) eqn:E2.
      * destruct (Qle_bool (q_hi df col) v); cbn; lia.
      * replace (Qle_bool (q_hi df col) v) with false; [cbn; lia|].
        symmetry. destruct (Qle_bool (q_hi df col) v) eqn:E3; [|reflexivity].
        apply Qle_bool_iff in E3.
        assert (Qle_bool (q_hi df col) w = true); [|congruence].
        apply Qle_bool_iff. eapply Qle_trans; eauto.
  - replace (Qle_bool (q_lo df col) (q_lo df col)) with true; [reflexivity|].
    symmetry. apply Qle_bool_iff, Qle_refl.
  - destruct (Qle_bool (q_hi df col) (q_lo df col)); [reflexivity|].
    replace (Qle_bool (q_hi df col) (q_hi df col)) with true; [reflexivity|].
    symmetry. apply Qle_bool_iff, Qle_refl.
Qed.

Lemma fuzzify_monotone_witness :
  (label_rank (fuzzify_val fuzzy_sample 0 2) <= label_rank (fuzzify_val fuzzy_sample 0 5))%nat
  /\ fuzzify_val fuzzy_sample 0 (q_lo fuzzy_sample 0) = Low
  /\ fuzzify_val fuzzy_sample 0 (q_hi fuzzy_sample 0)
     = if Qle_bool (q_hi fuzzy_sample 0) (q_lo fuzzy_sample 0) then Low else High.
Proof.
  apply (fuzzify_monotone fuzzy_sample 0 2 5). discriminate.
Defined.

End FuzzyMore.

(** ** Quantiles *)

Section QuantileFacts.

Local Open Scope Q_scope.

Lemma quantile_interp (num den : Z) (l : list Q) :
  Np.quantile num den l
  = interp (Np.sort l)
      (Z.to_nat ((num * (Z.of_nat (List.length (Np.sort l)) - 1)) / den))
      (inject_Z ((num * (Z.of_nat (List.length (Np.sort l)) - 1)) mod den) / inject_Z den).
Proof. reflexivity. Qed.

Lemma frac_range (pos den : Z) :
  (0 < den)%Z -> 0 <= inject_Z (pos mod den) / inject_Z den <= 1.
Proof.
  intros Hd. pose proof (Z.mod_pos_bound pos den Hd) as [H1 H2].
  assert (Hp : 0 < inject_Z den) by (change 0 with (inject_Z 0); rewrite <- Zlt_Qlt; lia).
  split.
  - apply Qle_shift_div_l; [exact Hp|]. rewrite Qmult_0_l.
    change 0 with (inject_Z 0). rewrite <- Zle_Qle. lia.
  - apply Qle_shift_div_r; [exact Hp|]. rewrite Qmult_1_l.
    rewrite <- Zle_Qle. lia.
Qed.

Lemma next_value (s : list Q) (lo : nat) :
  StronglySorted Qle s -> (lo < List.length s)%nat ->
  nth lo s 0 <= nth (S lo) s (nth lo s 0)
  /\ forall j, (lo < j)%nat -> (j < List.length s)%nat ->
       nth (S lo) s (nth lo s 0) <= nth j s 0.
Proof.
  intros Hs Hlo. destruct (Nat.lt_ge_cases (S lo) (List.length s)) as [Hlt|Hge].
  - rewrite (nth_indep s (nth lo s 0) 0 Hlt). split.
    + apply sorted_nth_le; auto.
    + intros j Hj1 Hj2. apply sorted_nth_le; auto.
  - rewrite (nth_overflow s (nth lo s 0) Hge). split; [apply Qle_refl|].
    intros j Hj1 Hj2. lia.
Qed.

Lemma interp_bounds (s : list Q) (lo : nat) (frac : Q) :
  StronglySorted Qle s -> (lo < List.length s)%nat -> 0 <= frac <= 1 ->
  nth lo s 0 <= interp s lo frac <= nth (S lo) s (nth lo s 0).
Proof.
  intros Hs Hlo [Hf0 Hf1]. destruct (next_value s lo Hs Hlo) as [Hab _].
  unfold interp. set (a := nth lo s 0) in *. set (b := nth (S lo) s a) in *.
  assert (H0 : 0 <= (b - a) * frac) by (apply Qmult_le_0_compat; lra).
  assert (H1 : (b - a) * frac <= (b - a) * 1)
    by (rewrite !(Qmult_comm (b - a)); apply Qmult_le_compat_r; lra).
  lra.
Qed.

(** The quantile does not decrease with the level. *)
Lemma quantile_mono (num1 num2 den : Z) (l : list Q) :
  (0 <= num1)%Z -> (num1 <= num2)%Z -> (num2 <= den)%Z -> (0 < den)%Z -> l <> [] ->
  Np.quantile num1 den l <= Np.quantile num2 den l.
Proof.
  intros H0 H12 H2 Hd Hne. rewrite !quantile_interp.
  pose proof (np_sort_sorted l) as Hs.
  assert (Hlen : (1 <= List.length (Np.sort l))%nat).
  { rewrite np_sort_length. destruct l; [congruence | cbn; lia]. }
  set (s := Np.sort l) in *. set (m := (Z.of_nat (List.length s) - 1)%Z).
  assert (Hm : (0 <= m)%Z) by (unfold m; lia).
  assert (Hq : forall num, (0 <= num <= den)%Z -> (0 <= num * m / den <= m)%Z).
  { intros num Hn. split; [apply Z.div_pos; nia|].
    apply Z.div_le_upper_bound; nia. }
  pose proof (Hq num1 ltac:(lia)) as Hq1. pose proof (Hq num2 ltac:(lia)) as Hq2.
  assert (Hmono : (num1 * m / den <= num2 * m / den)%Z)
    by (apply Z.div_le_mono; nia).
  set (lo1 := Z.to_nat (num1 * m / den)). set (lo2 := Z.to_nat (num2 * m / den)).
  assert (Hlo1 : (lo1 < List.length s)%nat) by (unfold lo1, m in *; lia).
  assert (Hlo2 : (lo2 < List.length s)%nat) by (unfold lo2, m in *; lia).
  pose proof (frac_range (num1 * m) den Hd) as Hf1.
  pose proof (frac_range (num2 * m) den Hd) as Hf2.
  destruct (Nat.eq_dec lo1 lo2) as [E|E].
  - (* same pair of neighbours: the fraction grows *)
    rewrite <- E. unfold interp. destruct (next_value s lo1 Hs Hlo1) as [Hab _].
    set (a := nth lo1 s 0) in *. set (b := nth (S lo1) s a) in *.
    assert (Hfr : inject_Z ((num1 * m) mod den) / inject_Z den
                  <= inject_Z ((num2 * m) mod den) / inject_Z den).
    { assert (Hp : 0 < inject_Z den)
        by (change 0 with (inject_Z 0); rewrite <- Zlt_Qlt; lia).
      apply Qle_shift_div_l; [exact Hp|].
      unfold Qdiv. rewrite <- Qmult_assoc, (Qmult_comm (/ inject_Z den)).
      rewrite Qmult_inv_r by (intros C; rewrite C in Hp; discriminate).
      rewrite Qmult_1_r, <- Zle_Qle.
      assert (Eq : (num1 * m / den = num2 * m / den)%Z) by (unfold lo1, lo2 in E; lia).
      pose proof (Z.div_mod (num1 * m) den ltac:(lia)).
      pose proof (Z.div_mod (num2 * m) den ltac:(lia)). nia. }
    assert (Hmul : (b - a) * (inject_Z ((num1 * m) mod den) / inject_Z den)
                   <= (b - a) * (inject_Z ((num2 * m) mod den) / inject_Z den))
      by (rewrite !(Qmult_comm (b - a)); apply Qmult_le_compat_r; lra).
    lra.
  - (* the second level has moved on to a later pair *)
    assert (Hlt : (lo1 < lo2)%nat) by (unfold lo1, lo2 in *; lia).
    destruct (interp_bounds s lo1 _ Hs Hlo1 Hf1) as [_ Hu].
    destruct (interp_bounds s lo2 _ Hs Hlo2 Hf2) as [Hl _].
    destruct (next_value s lo1 Hs Hlo1) as [_ Hnext].
    specialize (Hnext lo2 Hlt Hlo2).
    eapply Qle_trans; [exact Hu|]. eapply Qle_trans; [exact Hnext | exact Hl].
Qed.

(** Every quantile lies between two of the values. *)
Lemma quantile_between (num den : Z) (l : list Q) :
  (0 <= num <= den)%Z -> (0 < den)%Z -> l <> [] ->
  exists a b, In a l /\ In b l /\ a <= Np.quantile num den l <= b.
Proof.
  intros Hn Hd Hne. rewrite quantile_interp.
  pose proof (np_sort_sorted l) as Hs.
  assert (Hlen : (1 <= List.length (Np.sort l))%nat).
  { rewrite np_sort_length. destruct l; [congruence | cbn; lia]. }
  set (s := Np.sort l) in *. set (m := (Z.of_nat (List.length s) - 1)%Z).
  assert (Hq : (0 <= num * m / den <= m)%Z).
  { unfold m. split; [apply Z.div_pos; nia|]. apply Z.div_le_upper_bound; nia. }
  set (lo := Z.to_nat (num * m / den)).
  assert (Hlo : (lo < List.length s)%nat) by (unfold lo, m in *; lia).
  destruct (interp_bounds s lo _ Hs Hlo (frac_range (num * m) den Hd)) as [Hl Hu].
  exists (nth lo s 0), (nth (S lo) s (nth lo s 0)).
  split; [apply np_sort_In; now apply nth_In|]. split; [|split; assumption].
  apply np_sort_In. fold s.
  destruct (Nat.lt_ge_cases (S lo) (List.length s)) as [Hlt|Hge].
  - now apply nth_In.
  - rewrite (nth_overflow s _ Hge). now apply nth_In.
Qed.


End QuantileFacts.

(** ** Fuzzy thresholds *)

Section FuzzyThresholds.

Import Fuzzy.
Local Open Scope Q_scope.

Lemma column_nonempty (k : nat) (df : Table) : df <> [] -> column k df <> [].
Proof. destruct df; [congruence | discriminate]. Qed.

(** X19. The thresholds are ordered: on a non-empty cleaned table the low
    threshold of a series never exceeds its high threshold, both lie
    between two values of the series, and a value is labelled medium
    exactly when it lies strictly between the two thresholds. *)
Theorem fuzzy_thresholds_ordered (df : Table) (col : nat) :
  df <> [] ->
  q_lo df col <= q_hi df col
  /\ (exists a b, In a (column col df) /\ In b (column col df)
                  /\ a <= q_lo df col /\ q_hi df col <= b)
  /\ forall v, fuzzify_val df col v = Medium <-> q_lo df col < v /\ v < q_hi df col.
Proof.
  intros Hne. pose proof (column_nonempty col df Hne) as Hc.
  split; [|split].
  - unfold q_lo, q_hi. apply quantile_mono; (lia || exact Hc).
  - unfold q_lo, q_hi.
    destruct (quantile_between 33 100 _ ltac:(lia) ltac:(lia) Hc) as [a [_ [Ha [_ [Hl _]]]]].
    destruct (quantile_between 66 100 _ ltac:(lia) ltac:(lia) Hc) as [_ [b [_ [Hb [_ Hu]]]]].
    exists a, b. auto.
  - intros v. unfold fuzzify_val.
    destruct (Qle_bool v (q_lo df col)) eqn:E1.
    + apply Qle_bool_iff in E1. split; [discriminate|]. intros [H _]. lra.
    + assert (H1 : q_lo df col < v).
      { apply Qnot_le_lt. intros C. apply Qle_bool_iff in C. congruence. }
      destruct (Qle_bool (q_hi df col) v) eqn:E2.
      * apply Qle_bool_iff in E2. split; [discriminate|]. intros [_ H]. lra.
      * split; [intros _|reflexivity]. split; [exact H1|].
        apply Qnot_le_lt. intros C. apply Qle_bool_iff in C. congruence.
Qed.

Lemma fuzzy_thresholds_ordered_witness :
  q_lo fuzzy_sample 0 <= q_hi fuzzy_sample 0
  /\ (exists a b, In a (column 0 fuzzy_sample) /\ In b (column 0 fuzzy_sample)
                  /\ a <= q_lo fuzzy_sample 0 /\ q_hi fuzzy_sample 0 <= b)
  /\ forall v, fuzzify_val fuzzy_sample 0 v = Medium
               <-> q_lo fuzzy_sample 0 < v /\ v < q_hi fuzzy_sample 0.
Proof.
  apply (fuzzy_thresholds_ordered fuzzy_sample 0). discriminate.
Defined.

(** X20. A series that is constant over the cleaned rows has both
    thresholds at its value, so every row gets the label low for it: a
    constant output yields rules with the consequent low only. *)
Theorem fuzzify_constant_column (df : Table) (col : nat) (c : Q) :
  df <> [] -> AllEq c (column col df) ->
  q_lo df col == c /\ q_hi df col == c
  /\ forall row, In row df -> fuzzify_val df col (nth col row 0) = Low.
Proof.
  intros Hne Hall. pose proof (column_nonempty col df Hne) as Hc.
  assert (Hq : forall num, (0 <= num <= 100)%Z -> Np.quantile num 100 (column col df) == c).
  { intros num Hn.
    destruct (quantile_between num 100 _ Hn ltac:(lia) Hc) as [a [b [Ha [Hb [Hl Hu]]]]].
    pose proof (proj1 (Forall_forall _ _) Hall a Ha) as Ea.
    pose proof (proj1 (Forall_forall _ _) Hall b Hb) as Eb.
    cbv beta in Ea, Eb. apply Qle_antisym; lra. }
  assert (Hlo : q_lo df col == c) by (apply Hq; lia).
  split; [exact Hlo|]. split; [apply Hq; lia|].
  intros row Hrow. unfold fuzzify_val.
  replace (Qle_bool (nth col row 0) (q_lo df col)) with true; [reflexivity|].
  symmetry. apply Qle_bool_iff. rewrite Hlo.
  assert (Hin : In (nth col row 0) (column col df))
    by (unfold column; apply in_map_iff; exists row; auto).
  pose proof (proj1 (Forall_forall _ _) Hall _ Hin) as E. cbv beta in E.
  rewrite E. apply Qle_refl.
Qed.

Lemma fuzzify_constant_column_witness :
  q_lo constant_output 1 == 7 /\ q_hi constant_output 1 == 7
  /\ forall row, In row constant_output ->
       fuzzify_val constant_output 1 (nth 1 row 0) = Low.
Proof.
  apply (fuzzify_constant_column constant_output 1 7).
  - discriminate.
  - repeat constructor.
Defined.

End FuzzyThresholds.

(** ** Descriptive statistics *)

Section StatsFacts.

Import Stats.
Local Open Scope Q_scope.





Lemma valid_length (s : list (option Q)) : (List.length (valid s) <= List.length s)%nat.
Proof.
  unfold valid. induction s as [|[v|] r IH]; cbn [flat_map List.app List.length]; lia.
Qed.

(** X21. The share of missing cells: on a window with rows the missing
    rate is a number between 0 and 1, and the count of valid samples and
    the missing rate account for every row:
    [count + missing_rate * rows = rows]. *)
Theorem describe_missing_rate (s : list (option Q)) :
  s <> [] ->
  (count (describe s) <= List.length s)%nat
  /\ exists q, missing_rate (describe s) = Some q
       /\ 0 <= q <= 1
       /\ inject_Z (Z.of_nat (count (describe s))) + q * inject_Z (Z.of_nat (List.length s))
          == inject_Z (Z.of_nat (List.length s)).
Proof.
  intros Hne. pose proof (valid_length s) as Hv. cbn [describe count missing_rate].
  split; [exact Hv|]. unfold isna_mean. destruct s as [|c r]; [congruence|].
  set (n := List.length (c :: r)) in *. set (k := List.length (valid (c :: r))) in *.
  assert (Hn : (1 <= n)%nat) by (unfold n; cbn; lia).
  assert (Hp : 0 < inject_Z (Z.of_nat n))
    by (change 0 with (inject_Z 0); rewrite <- Zlt_Qlt; lia).
  eexists. split; [reflexivity|]. split; [split|].
  - apply Qle_shift_div_l; [exact Hp|]. rewrite Qmult_0_l.
    change 0 with (inject_Z 0). rewrite <- Zle_Qle. lia.
  - apply Qle_shift_div_r; [exact Hp|]. rewrite Qmult_1_l, <- Zle_Qle. lia.
  - rewrite Nat2Z.inj_sub by exact Hv. unfold Zminus.
    rewrite inject_Z_plus, inject_Z_opp. field.
    intros C. rewrite C in Hp. discriminate.
Qed.

Lemma describe_missing_rate_witness :
  (count (describe cells_sample) <= List.length cells_sample)%nat
  /\ exists q, missing_rate (describe cells_sample) = Some q
       /\ 0 <= q <= 1
       /\ inject_Z (Z.of_nat (count (describe cells_sample)))
          + q * inject_Z (Z.of_nat (List.length cells_sample))
          == inject_Z (Z.of_nat (List.length cells_sample)).
Proof.
  apply (describe_missing_rate cells_sample). discriminate.
Defined.

(** X22. A series without a valid sample in the window: the count is 0,
    every statistic is NaN, and the missing rate is 1. Nothing is
    raised. *)
Theorem describe_all_missing (s : list (option Q)) :
  s <> [] -> Forall (fun c => c = None) s ->
  count (describe s) = 0%nat
  /\ mean (describe s) = None /\ min (describe s) = None
  /\ q25 (describe s) = None /\ q50 (describe s) = None
  /\ q75 (describe s) = None /\ max (describe s) = None
  /\ exists q, missing_rate (describe s) = Some q /\ q == 1.
Proof.
  intros Hne Hall.
  assert (Hv : valid s = []).
  { clear Hne. unfold valid. induction Hall as [|c r Hc Hr IH]; [reflexivity|].
    subst c. cbn [flat_map List.app]. apply IH. }
  cbn [describe count mean min q25 q50 q75 max missing_rate].
  unfold guarded, isna_mean. rewrite Hv. cbn [List.length].
  repeat split; try reflexivity.
  destruct s as [|c r]; [congruence|]. eexists. split; [reflexivity|].
  rewrite Nat.sub_0_r. field.
  intros C. unfold Qeq in C. cbn in C. lia.
Qed.

Lemma describe_all_missing_witness :
  count (describe cells_missing) = 0%nat
  /\ mean (describe cells_missing) = None /\ min (describe cells_missing) = None
  /\ q25 (describe cells_missing) = None /\ q50 (describe cells_missing) = None
  /\ q75 (describe cells_missing) = None /\ max (describe cells_missing) = None
  /\ exists q, missing_rate (describe cells_missing) = Some q /\ q == 1.
Proof.
  apply (describe_all_missing cells_missing).
  - discriminate.
  - repeat constructor.
Defined.



End StatsFacts.

(** ** Causality ranking: ties *)

Section GrangerTies.

Import Granger.
Local Open Scope Q_scope.

Lemma sorted_head_first (pvals : list (Z * Q)) : forall best rest,
  sorted_by_pvalue pvals = best :: rest ->
  exists before after,
    pvals = (before ++ best :: after)%list
    /\ forall v, In v before -> snd best < snd v.
Proof.
  unfold sorted_by_pvalue. induction pvals as [|v r IH]; intros best rest H;
    [discriminate|].
  cbn [fold_right] in H.
  destruct (fold_right insert_p [] r) as [|h t] eqn:E.
  - assert (r = []).
    { destruct r as [|u r']; [reflexivity|]. exfalso.
      assert (Hin : In u (sorted_by_pvalue (u :: r')))
        by (apply sorted_by_pvalue_In; now left).
      unfold sorted_by_pvalue in Hin. rewrite E in Hin. exact Hin. }
    subst r. cbn in H. inversion H; subst. exists [], []. split; [reflexivity|].
    intros x [].
  - cbn [insert_p] in H. destruct (Qle_bool (snd v) (snd h)) eqn:Ev.
    + inversion H; subst. exists [], r. split; [reflexivity|]. intros x [].
    + inversion H; subst. destruct (IH best t eq_refl) as [before [after [Hr Hb]]].
      exists (v :: before), after. split; [now rewrite Hr|].
      intros x [<-|Hx]; [|now apply Hb].
      apply Qnot_le_lt. intros C. apply Qle_bool_iff in C. congruence.
Qed.

End GrangerTies.

Section GrangerTieBreak.

Import Granger.
Local Open Scope Q_scope.

Variable test : list Q -> list Q -> Z -> string + list (Z * Q).

(** X24. Ties go to the lag tested first: the lag reported for a pair is
    the first entry, in the order the test returned its lags, whose
    p-value is the least; every entry before it has a strictly larger
    p-value and no entry after it has a smaller one. *)
Theorem best_lag_first_minimum (m : Z) (x y : string * list Q) (pvals : list (Z * Q))
    (lag : Z) (p : Q) :
  test (snd y) (snd x) m = inr pvals ->
  pair_line test m x y = BestLag (fst x) (fst y) lag p ->
  exists before after,
    pvals = (before ++ (lag, p) :: after)%list
    /\ (forall v, In v before -> p < snd v)
    /\ (forall v, In v after -> p <= snd v).
Proof.
  intros Ht Hl. unfold pair_line in Hl. rewrite Ht in Hl.
  destruct (sorted_by_pvalue pvals) as [|[lag' p'] rest] eqn:E; [discriminate|].
  cbn [fst snd] in Hl. inversion Hl; subst lag' p'.
  destruct (sorted_head_first pvals _ _ E) as [before [after [Hp Hb]]].
  destruct (sorted_head_least pvals _ _ E) as [_ Hmin].
  exists before, after. split; [exact Hp|]. split; [exact Hb|].
  intros v Hv. apply (Hmin v). rewrite Hp. apply in_or_app. right. now right.
Qed.

End GrangerTieBreak.

Section GrangerTieExample.

Import Granger.
Local Open Scope Q_scope.

Lemma best_lag_first_minimum_witness :
  exists before after,
    [(1%Z, 1 # 2); (2%Z, 1 # 10); (3%Z, 1 # 10)]
    = (before ++ (2%Z, 1 # 10) :: after)%list
    /\ (forall v, In v before -> (1 # 10) < snd v)
    /\ (forall v, In v after -> (1 # 10) <= snd v).
Proof.
  apply (best_lag_first_minimum
           (fun _ _ _ => inr [(1%Z, 1 # 2); (2%Z, 1 # 10); (3%Z, 1 # 10)])
           3 ("a_u"%string, []) ("a_v"%string, [])
           [(1%Z, 1 # 2); (2%Z, 1 # 10); (3%Z, 1 # 10)] 2 (1 # 10)); reflexivity.
Defined.

End GrangerTieExample.

(** ** Goodness of fit: bounds *)

Section FitFacts.

Import Identifier.
Local Open Scope Q_scope.






End FitFacts.

(** ** Step detector: what a window stands for *)

Section DetectorPeaks.

Import StepDetector Identifier.
Local Open Scope Q_scope.

(** X26. Behind every window that the detector reports with the default
    threshold there is a peak [p] of the absolute smoothed differences,
    not at either end, whose prominence is at least
    [max(1e-6, 3 MAD)], hence at least [1e-6]; the window is
    [max(0, p - 8)] to [min(len - 1, p + 8)]. *)
Theorem detected_peak_prominent (vals : list Q) (distance : nat) (s e : Z) :
  In (s, e) (_detect_steps vals None distance) ->
  exists p : nat,
    (1 <= p < List.length vals - 1)%nat
    /\ s = Z.max 0 (Z.of_nat p - 8)
    /\ e = Z.min (Z.of_nat (List.length vals) - 1) (Z.of_nat p + 8)
    /\ threshold (mad_of (rolling_median3 (Np.diff vals)))
       <= prominence_of (map Qabs (rolling_median3 (Np.diff vals))) p
    /\ eps <= prominence_of (map Qabs (rolling_median3 (Np.diff vals))) p.
Proof.
  unfold _detect_steps. destruct (List.length vals <? 10)%nat; [intros []|].
  intros H. apply in_map_iff in H. destruct H as [p [Hp H]].
  apply find_peaks_sorted in H. destruct H as [H1 [H2 H3]].
  rewrite smoothed_length in H2. exists p. inversion Hp; subst.
  repeat split; try lia; try exact H3.
  eapply Qle_trans; [|exact H3]. apply threshold_floor.
Qed.

Lemma detected_peak_prominent_witness :
  exists p : nat,
    (1 <= p < List.length bumpy - 1)%nat
    /\ 12%Z = Z.max 0 (Z.of_nat p - 8)
    /\ 28%Z = Z.min (Z.of_nat (List.length bumpy) - 1) (Z.of_nat p + 8)
    /\ threshold (mad_of (rolling_median3 (Np.diff bumpy)))
       <= prominence_of (map Qabs (rolling_median3 (Np.diff bumpy))) p
    /\ eps <= prominence_of (map Qabs (rolling_median3 (Np.diff bumpy))) p.
Proof.
  apply (detected_peak_prominent bumpy 5 12 28). vm_compute. left. reflexivity.
Defined.

End DetectorPeaks.

(** ** Dataset store: what the variable list hides, what a load forgets *)

Section LoaderEdges.

Import Loader.
Local Open Scope string_scope.






(** X28. A file that holds nothing but its time column leaves no trace:
    loaded first, it makes a dataset without columns, which counts as
    empty, so the next non-empty file loaded replaces it, timestamps
    included. *)
Theorem time_only_file_forgotten (f1 f2 time_col : string) (times : list Z)
    (t2 : RawTable) :
  times <> [] -> raw_empty t2 = false ->
  empty (load_file empty_frame f1 (mkRaw [time_col] times)) = true
  /\ update_variable_list (load_file empty_frame f1 (mkRaw [time_col] times)) = []
  /\ load_file (load_file empty_frame f1 (mkRaw [time_col] times)) f2 t2
     = load_file empty_frame f2 t2.
Proof.
  intros Hne He2. destruct times as [|t0 ts]; [congruence|].
  assert (H1 : load_file empty_frame f1 (mkRaw [time_col] (t0 :: ts)) = mkDF (t0 :: ts) [])
    by reflexivity.
  rewrite H1. split; [reflexivity|]. split; [reflexivity|].
  unfold load_file, load_file_with. rewrite He2. reflexivity.
Qed.

Lemma time_only_file_forgotten_witness :
  empty (load_file empty_frame "logs/clock.csv" (mkRaw ["time"] [0; 60]%Z)) = true
  /\ update_variable_list (load_file empty_frame "logs/clock.csv" (mkRaw ["time"] [0; 60]%Z)) = []
  /\ load_file (load_file empty_frame "logs/clock.csv" (mkRaw ["time"] [0; 60]%Z))
       "logs/a.csv" sample_table
     = load_file empty_frame "logs/a.csv" sample_table.
Proof.
  apply (time_only_file_forgotten "logs/clock.csv" "logs/a.csv" "time" [0; 60]%Z sample_table).
  - discriminate.
  - reflexivity.
Defined.

End LoaderEdges.
